(** * whisper.cpp audio helpers: a shallow embedding of
      [examples/common-whisper.cpp] and the properties of its operations.

    The file follows the source top to bottom: the resampler lifecycle
    ([init_resamplers], [uninit_resamplers]), the sample-rate conversion
    helper ([resample_audio]), the RNNoise frame loop ([denoise_audio]),
    the decode adapter ([read_audio_data]) and the two timestamp helpers
    ([to_timestamp], [timestamp_to_sample]).

    Conventions.
    - [int], [int64_t] and [ma_uint64] values are integers of [Z]; every
      arithmetic operation writes its two's-complement wrap-around out and
      records, in a sticky flag, whether the mathematical result left the
      range of the type (signed overflow in C++).
    - [float] is IEEE-754 binary32, taken from the Standard Library's
      executable specification of floating-point arithmetic.
    - [std::vector<T>] is [list T]; an access outside the vector is an
      error of the model ([None]). Allocation is taken to succeed: the
      exceptions of [resize] and of the vector constructors are outside
      the model, which describes the calls that return.
    - miniaudio, RNNoise and ffmpeg are external: their entry points are
      the methods of three classes, so every theorem holds for every
      implementation of them. *)

From Stdlib Require Import ZArith Lia Bool String Ascii DecimalString.
From Stdlib Require Import Floats.SpecFloat.
From stdpp Require Import base list.

Local Open Scope Z_scope.

(** ** Machine integers *)

Module MachineInt.

(** Two's-complement representative of [z] in a signed [w]-bit type. *)
Definition wrap (w z : Z) : Z := (z + 2 ^ (w - 1)) mod 2 ^ w - 2 ^ (w - 1).

(** Does [z] lie in the range of a signed [w]-bit type? *)
Definition fits (w z : Z) : bool := (- 2 ^ (w - 1) <=? z) && (z <? 2 ^ (w - 1)).

Definition INT_MIN : Z := - 2 ^ 31.
Definition INT_MAX : Z := 2 ^ 31 - 1.
Definition INT64_MIN : Z := - 2 ^ 63.
Definition INT64_MAX : Z := 2 ^ 63 - 1.

(** A computed value together with the sticky signed-overflow flag. *)
Record ck (A : Type) : Type := Ck { value : A; overflowed : bool }.
Arguments Ck {A} _ _.
Arguments value {A} _.
Arguments overflowed {A} _.

Definition ret {A} (a : A) : ck A := Ck a false.

Definition bind {A B} (m : ck A) (k : A -> ck B) : ck B :=
  let r := k (value m) in Ck (value r) (overflowed m || overflowed r).

(** The result of a signed [w]-bit operation whose exact result is [z]. *)
Definition arith (w z : Z) : ck Z := Ck (wrap w z) (negb (fits w z)).

(** Conversion to a narrower signed type: modular, never an overflow. *)
Definition cast (w z : Z) : Z := wrap w z.

End MachineInt.

Import MachineInt.

#[global] Instance ck_ret : MRet ck := @ret.
#[global] Instance ck_bind : MBind ck := fun A B k m => bind m k.

(** ** binary32 samples *)

Module F32.

Definition prec : Z := 24.
Definition emax : Z := 128.

Definition f32 : Type := spec_float.

Definition add : f32 -> f32 -> f32 := SFadd prec emax.
Definition mul : f32 -> f32 -> f32 := SFmul prec emax.
Definition div : f32 -> f32 -> f32 := SFdiv prec emax.

(** The [float] nearest to an integer literal. *)
Definition of_Z (z : Z) : f32 := binary_normalize prec emax z 0 false.

(** [0.0f], the value of a value-initialised vector element. *)
Definition zero : f32 := S754_zero false.

(** The comparison [x == y] of C++: false as soon as a NaN is involved. *)
Definition eqb : f32 -> f32 -> bool := SFeqb.

End F32.

Import F32.

(** ** Vectors and loops *)

(** [v[i]] is [v !! i]; [v[i] = x] is [set_at v i x]. Both are errors
    outside the vector. *)
Definition set_at {A} (v : list A) (i : nat) (x : A) : option (list A) :=
  if decide (i < length v)%nat then Some (<[i := x]> v) else None.

(** An external routine stores [data] through the pointer [v.data()]. *)
Definition write_at {A} (v data : list A) : option (list A) :=
  if decide (length data <= length v)%nat
  then Some (data ++ drop (length data) v) else None.

(** [for (i = start; i < start + n; i++) body], with state [s]. *)
Fixpoint for_loop {St} (n start : nat) (body : nat -> St -> option St) (s : St)
  : option St :=
  match n with
  | O => Some s
  | S n' => s' ← body start s; for_loop n' (S start) body s'
  end.

Definition for_range {St} (n : nat) (body : nat -> St -> option St) (s : St)
  : option St := for_loop n 0 body s.

(** Wrap-around of [ma_uint64] and [size_t] arithmetic. *)
Definition u64 (z : Z) : Z := z mod 2 ^ 64.

(** ** printf-style formatting *)

Definition decimal (n : N) : string := NilZero.string_of_uint (N.to_uint n).

Fixpoint zeros (n : nat) : string :=
  match n with
  | O => EmptyString
  | S n' => String "0" (zeros n')
  end.

(** [%0<width>d]: sign first, then zeros up to the minimum field width. *)
Definition fmt_0d (width : nat) (v : Z) : string :=
  let sign := if v <? 0 then "-"%string else EmptyString in
  let digits := decimal (Z.abs_N v) in
  String.append sign
    (String.append (zeros (width - String.length sign - String.length digits)) digits).

(** [snprintf(buf, size, ...)] keeps at most [size - 1] characters. *)
Definition snprintf (size : nat) (s : string) : string := substring 0 (size - 1) s.

(** ** Timestamp mapper *)

(** The [snprintf] call of [to_timestamp], line 246: format
    ["%02d:%02d:%02d%s%03d"] into a buffer of 32 characters, every field
    converted to [int] first. *)
Definition format_timestamp (hr min sec : Z) (comma : bool) (msec : Z) : string :=
  snprintf 32
    (String.append (fmt_0d 2 (cast 32 hr))
    (String.append ":"%string
    (String.append (fmt_0d 2 (cast 32 min))
    (String.append ":"%string
    (String.append (fmt_0d 2 (cast 32 sec))
    (String.append (if comma then ","%string else "."%string)
                   (fmt_0d 3 (cast 32 msec)))))))).

(** [std::string to_timestamp(int64_t t, bool comma)], lines 236-249. *)
Definition to_timestamp (t : Z) (comma : bool) : ck string :=
  msec ← arith 64 (t * 10);
  hr ← arith 64 (Z.quot msec (1000 * 60 * 60));
  hr_ms ← arith 64 (hr * (1000 * 60 * 60));
  msec ← arith 64 (msec - hr_ms);
  min ← arith 64 (Z.quot msec (1000 * 60));
  min_ms ← arith 64 (min * (1000 * 60));
  msec ← arith 64 (msec - min_ms);
  sec ← arith 64 (Z.quot msec 1000);
  sec_ms ← arith 64 (sec * 1000);
  msec ← arith 64 (msec - sec_ms);
  ret (format_timestamp hr min sec comma msec).

(** [int timestamp_to_sample(int64_t t, int n_samples, int whisper_sample_rate)],
    lines 251-253. *)
Definition timestamp_to_sample (t n_samples whisper_sample_rate : Z) : ck Z :=
  prod ← arith 64 (t * whisper_sample_rate);
  q ← arith 64 (Z.quot prod 100);
  last ← arith 32 (n_samples - 1);
  ret (Z.max 0 (Z.min last (cast 32 q))).


(** ** External capabilities *)

(** The part of miniaudio the file uses. A [ma_result] is only ever
    compared with [MA_SUCCESS]. Routines that fill an object through a
    pointer return the new object. *)
Class Miniaudio := {
  ma_result : Type;
  ma_result_eq_dec :: EqDecision ma_result;
  MA_SUCCESS : ma_result;
  ma_result_description : ma_result -> string;
  ma_format : Type;
  ma_format_f32 : ma_format;
  (* linear resampler *)
  ma_linear_resampler : Type;
  ma_linear_resampler_config : Type;
  ma_linear_resampler_config_init :
    ma_format -> Z -> Z -> Z -> ma_linear_resampler_config;
  set_lpfOrder : ma_linear_resampler_config -> Z -> ma_linear_resampler_config;
  ma_linear_resampler_init :
    ma_linear_resampler_config -> ma_linear_resampler ->
    ma_result * ma_linear_resampler;
  ma_linear_resampler_uninit : ma_linear_resampler -> ma_linear_resampler;
  ma_linear_resampler_reset : ma_linear_resampler -> ma_linear_resampler;
  ma_linear_resampler_get_expected_output_frame_count :
    ma_linear_resampler -> Z -> Z;
  (* resampler, input, input frame count, output capacity; gives the new
     resampler, the samples stored in the output buffer and the number of
     output frames produced *)
  ma_linear_resampler_process_pcm_frames :
    ma_linear_resampler -> list f32 -> Z -> Z ->
    ma_linear_resampler * list f32 * Z;
  (* decoder *)
  ma_decoder : Type;
  ma_decoder_config : Type;
  ma_decoder_config_init : ma_format -> Z -> Z -> ma_decoder_config;
  ma_decoder_init_memory :
    list Byte.byte -> ma_decoder_config -> ma_result * ma_decoder;
  ma_decoder_init_file :
    string -> ma_decoder_config -> ma_result * ma_decoder;
  ma_decoder_get_length_in_pcm_frames : ma_decoder -> ma_result * Z;
  (* decoder, frame count asked for; gives the result, the samples stored
     in the output buffer and the number of frames read *)
  ma_decoder_read_pcm_frames :
    ma_decoder -> Z -> ma_result * list f32 * Z;
}.

(** RNNoise: one call transforms one frame and advances the state. *)
Class RNNoise := {
  DenoiseState : Type;
  rnnoise_process_frame : DenoiseState -> list f32 -> DenoiseState * list f32;
}.

(** What the build supplies: [WHISPER_SAMPLE_RATE] of [whisper.h], and the
    ffmpeg transcoder when [WHISPER_FFMPEG] is defined. *)
Class Build := {
  WHISPER_SAMPLE_RATE : Z;
  WHISPER_FFMPEG : bool;
  ffmpeg_decode_audio : string -> list Byte.byte -> bool * list Byte.byte;
}.

(** ** Resampler lifecycle, conversion and the frame denoiser *)

Definition RNNOISE_SAMPLE_RATE : Z := 48000.
Definition RNNOISE_FRAME_SIZE : nat := 480.

Section Denoiser.
Context `{Miniaudio} `{RNNoise} `{Build}.

(** The three file-level variables of lines 35-37. *)
Record globals := {
  g_resampler_16k_to_48k : ma_linear_resampler;
  g_resampler_48k_to_16k : ma_linear_resampler;
  g_resamplers_initialized : bool;
}.

(** [bool init_resamplers()], lines 39-69. *)
Definition init_resamplers (g : globals) : bool * globals :=
  if g_resamplers_initialized g then (true, g) else
  let config_up :=
    set_lpfOrder
      (ma_linear_resampler_config_init ma_format_f32 1
         WHISPER_SAMPLE_RATE RNNOISE_SAMPLE_RATE) 4 in
  let '(r_up, up) := ma_linear_resampler_init config_up (g_resampler_16k_to_48k g) in
  if decide (r_up <> MA_SUCCESS) then
    (false, {| g_resampler_16k_to_48k := up;
               g_resampler_48k_to_16k := g_resampler_48k_to_16k g;
               g_resamplers_initialized := false |})
  else
  let config_down :=
    set_lpfOrder
      (ma_linear_resampler_config_init ma_format_f32 1
         RNNOISE_SAMPLE_RATE WHISPER_SAMPLE_RATE) 4 in
  let '(r_down, down) := ma_linear_resampler_init config_down (g_resampler_48k_to_16k g) in
  if decide (r_down <> MA_SUCCESS) then
    (false, {| g_resampler_16k_to_48k := ma_linear_resampler_uninit up;
               g_resampler_48k_to_16k := down;
               g_resamplers_initialized := false |})
  else
    (true, {| g_resampler_16k_to_48k := up;
              g_resampler_48k_to_16k := down;
              g_resamplers_initialized := true |}).

(** [void uninit_resamplers()], lines 71-77. *)
Definition uninit_resamplers (g : globals) : globals :=
  if negb (g_resamplers_initialized g) then g else
  {| g_resampler_16k_to_48k := ma_linear_resampler_uninit (g_resampler_16k_to_48k g);
     g_resampler_48k_to_16k := ma_linear_resampler_uninit (g_resampler_48k_to_16k g);
     g_resamplers_initialized := false |}.

(** [resample_audio(resampler, input)], lines 80-97. The resampler is
    passed by reference: it is an argument and a result. The flag is
    the global [g_resamplers_initialized]. *)
Definition resample_audio (initialized : bool)
    (resampler : ma_linear_resampler) (input : list f32)
  : option (ma_linear_resampler * list f32) :=
  if bool_decide (input = []) || negb initialized then Some (resampler, input) else
  let resampler := ma_linear_resampler_reset resampler in
  let input_frames := u64 (Z.of_nat (length input)) in
  let output_frames :=
    ma_linear_resampler_get_expected_output_frame_count resampler input_frames in
  let output := replicate (Z.to_nat output_frames) zero in
  let '(resampler, stored, output_frames) :=
    ma_linear_resampler_process_pcm_frames resampler input input_frames output_frames in
  output ← write_at output stored;
  Some (resampler, resize (Z.to_nat output_frames) zero output).

(** The state of the frame loop of [denoise_audio]: the RNNoise state,
    the scratch [frame], the 48 kHz buffer, and the frames handed to
    [rnnoise_process_frame] so far. *)
Record frame_state := {
  fs_st : DenoiseState;
  fs_frame : list f32;
  fs_pcmf32_48k : list f32;
  fs_handed : list (list f32);
}.

(** One iteration of the loop of lines 108-121, at offset [i]. *)
Definition denoise_frame (i : nat) (s : frame_state) : option frame_state :=
  frame ← for_range RNNOISE_FRAME_SIZE
    (fun j frame => x ← fs_pcmf32_48k s !! (i + j)%nat;
                    set_at frame j (mul x (of_Z 32768)))
    (fs_frame s);
  let '(st, out) := rnnoise_process_frame (fs_st s) frame in
  frame' ← write_at frame out;
  pcmf32_48k ← for_range RNNOISE_FRAME_SIZE
    (fun j pcm => x ← frame' !! j;
                  set_at pcm (i + j)%nat (div x (of_Z 32768)))
    (fs_pcmf32_48k s);
  Some {| fs_st := st; fs_frame := frame'; fs_pcmf32_48k := pcmf32_48k;
          fs_handed := fs_handed s ++ [frame] |}.

(** [for (size_t i = 0; i + RNNOISE_FRAME_SIZE <= pcmf32_48k.size();
    i += RNNOISE_FRAME_SIZE)]. The offset never exceeds the size of a
    vector of [float], far below [2 ^ 64 - 480], so [i + 480] does not
    wrap and offsets are natural numbers. The size of the buffer does not
    change in the loop, so [size / 480 + 1] tests of the condition are
    enough; [fuel] counts them. *)
Fixpoint denoise_frames (fuel i : nat) (s : frame_state) : option frame_state :=
  match fuel with
  | O => None
  | S fuel' =>
      if decide (i + RNNOISE_FRAME_SIZE <= length (fs_pcmf32_48k s))%nat then
        s' ← denoise_frame i s;
        denoise_frames fuel' (i + RNNOISE_FRAME_SIZE)%nat s'
      else Some s
  end.

(** [void denoise_audio(DenoiseState* st, std::vector<float>& pcmf32)],
    lines 99-125. The result carries the globals, the RNNoise state, the
    caller's buffer and the frames handed to RNNoise. *)
Definition denoise_audio (g : globals) (st : DenoiseState) (pcmf32 : list f32)
  : option (globals * DenoiseState * list f32 * list (list f32)) :=
  if bool_decide (pcmf32 = []) then Some (g, st, pcmf32, []) else
  '(up, pcmf32_48k) ← resample_audio (g_resamplers_initialized g)
                        (g_resampler_16k_to_48k g) pcmf32;
  s ← denoise_frames (S (length pcmf32_48k / RNNOISE_FRAME_SIZE)) 0
        {| fs_st := st; fs_frame := replicate RNNOISE_FRAME_SIZE zero;
           fs_pcmf32_48k := pcmf32_48k; fs_handed := [] |};
  '(down, pcmf32') ← resample_audio (g_resamplers_initialized g)
                       (g_resampler_48k_to_16k g) (fs_pcmf32_48k s);
  Some ({| g_resampler_16k_to_48k := up;
           g_resampler_48k_to_16k := down;
           g_resamplers_initialized := g_resamplers_initialized g |},
        fs_st s, pcmf32', fs_handed s).

End Denoiser.

(** ** Decode adapter *)

Definition nl : string := String "010" EmptyString.

Definition message (parts : list string) : string :=
  foldr String.append EmptyString parts.

(** [s.c_str()] read as a C string: the characters before the first NUL. *)
Fixpoint c_str (s : string) : string :=
  match s with
  | EmptyString => EmptyString
  | String c s' => if Ascii.eqb c "000" then EmptyString else String c (c_str s')
  end.

Section DecodeAdapter.
Context `{Miniaudio} `{Build}.

(** What a call of [read_audio_data] leaves behind: the returned flag,
    the two vectors passed by reference, and the lines printed on the
    standard error stream. *)
Record decoded := {
  ok : bool;
  out_pcmf32 : list f32;
  out_pcmf32s : list (list f32);
  out_stderr : list string;
}.

(** The [fread] loop of lines 155-162. [stdin] is the sequence of
    blocks the successive calls of [fread] deliver; the stream ends at
    the first empty block or at the end of the list. *)
Fixpoint read_stdin (stdin : list (list Byte.byte)) (audio_data : list Byte.byte)
  : list Byte.byte :=
  match stdin with
  | [] => audio_data
  | buf :: rest =>
      if decide (length buf = 0%nat) then audio_data
      else read_stdin rest (audio_data ++ buf)
  end.

(** Lines 149-193 of [read_audio_data]: open the decoder on the
    standard input, on the file, or on the fallback buffer. The file is
    opened, and named in the ffmpeg diagnostic, through [fname.c_str()];
    the comparison with ["-"], [ffmpeg_decode_audio] and the in-memory
    fallback see the whole string. *)
Definition open_decoder (stdin : list (list Byte.byte)) (fname : string)
    (decoder_config : ma_decoder_config) : option ma_decoder * list string :=
  if String.eqb fname "-" then
    let audio_data := read_stdin stdin [] in
    let '(result, decoder) := ma_decoder_init_memory audio_data decoder_config in
    if decide (result <> MA_SUCCESS) then
      (None, [message ["Error: failed to open audio data from stdin (";
                       ma_result_description result; ")"; nl]%string])
    else
      (Some decoder,
       [message ["read_audio_data: read ";
                 decimal (N.of_nat (length audio_data));
                 " bytes from stdin"; nl]%string])
  else
    let '(result, decoder) := ma_decoder_init_file (c_str fname) decoder_config in
    if decide (result <> MA_SUCCESS) then
      if WHISPER_FFMPEG then
        let '(failed, audio_data) := ffmpeg_decode_audio fname [] in
        if failed then
          (None, [message ["error: failed to ffmpeg decode '"; c_str fname; "'"; nl]%string])
        else
          let '(result, decoder) := ma_decoder_init_memory audio_data decoder_config in
          if decide (result <> MA_SUCCESS) then
            (None, [message ["error: failed to read audio data as wav (";
                             ma_result_description result; ")"; nl]%string])
          else (Some decoder, [])
      else
        let '(result, decoder) :=
          ma_decoder_init_memory (list_byte_of_string fname) decoder_config in
        if decide (result <> MA_SUCCESS) then
          (None, [message ["error: failed to read audio data as wav (";
                           ma_result_description result; ")"; nl]%string])
        else (Some decoder, [])
    else (Some decoder, []).

(** The first loop of the stereo branch, lines 216-218. *)
Definition sum_channels (stereo_data : list f32) (i : nat) (pcmf32 : list f32)
  : option (list f32) :=
  l ← stereo_data !! Z.to_nat (u64 (2 * Z.of_nat i));
  r ← stereo_data !! Z.to_nat (u64 (u64 (2 * Z.of_nat i) + 1));
  set_at pcmf32 i (add l r).

(** The second loop of the stereo branch, lines 223-226. *)
Definition split_channels (stereo_data : list f32) (i : nat)
    (pcmf32s : list (list f32)) : option (list (list f32)) :=
  l ← stereo_data !! Z.to_nat (u64 (2 * Z.of_nat i));
  c0 ← pcmf32s !! 0%nat;
  c0 ← set_at c0 i l;
  pcmf32s ← set_at pcmf32s 0 c0;
  r ← stereo_data !! Z.to_nat (u64 (u64 (2 * Z.of_nat i) + 1));
  c1 ← pcmf32s !! 1%nat;
  c1 ← set_at c1 i r;
  set_at pcmf32s 1 c1.

(** [bool read_audio_data(fname, pcmf32, pcmf32s, stereo)], lines 140-232.
    The result describes the calls that return: [None] stands for an
    access outside a vector, and a [resize] that throws
    ([std::length_error], [std::bad_alloc], for a frame count no vector
    can hold) is not modelled, so nothing here says that the call
    returns for such a frame count. *)
Definition read_audio_data (stdin : list (list Byte.byte)) (fname : string)
    (pcmf32 : list f32) (pcmf32s : list (list f32)) (stereo : bool)
  : option decoded :=
  let decoder_config :=
    ma_decoder_config_init ma_format_f32 (if stereo then 2 else 1)
      WHISPER_SAMPLE_RATE in
  match open_decoder stdin fname decoder_config with
  | (None, log) =>
      Some {| ok := false; out_pcmf32 := pcmf32; out_pcmf32s := pcmf32s;
              out_stderr := log |}
  | (Some decoder, log) =>
      let '(result, frame_count) := ma_decoder_get_length_in_pcm_frames decoder in
      if decide (result <> MA_SUCCESS) then
        Some {| ok := false; out_pcmf32 := pcmf32; out_pcmf32s := pcmf32s;
                out_stderr := log ++
                  [message ["error: failed to retrieve the length of the audio data (";
                            ma_result_description result; ")"; nl]%string] |}
      else
      let pcmf32 :=
        resize (Z.to_nat (if stereo then u64 (frame_count * 2) else frame_count))
          zero pcmf32 in
      let '(result, stored, frames_read) :=
        ma_decoder_read_pcm_frames decoder frame_count in
      pcmf32 ← write_at pcmf32 stored;
      if decide (result <> MA_SUCCESS) then
        Some {| ok := false; out_pcmf32 := pcmf32; out_pcmf32s := pcmf32s;
                out_stderr := log ++
                  [message ["error: failed to read the frames of the audio data (";
                            ma_result_description result; ")"; nl]%string] |}
      else if stereo then
        let stereo_data := pcmf32 in
        let pcmf32 := resize (Z.to_nat frame_count) zero pcmf32 in
        pcmf32 ← for_range (Z.to_nat frame_count) (sum_channels stereo_data) pcmf32;
        let pcmf32s := resize 2 [] pcmf32s in
        c0 ← pcmf32s !! 0%nat;
        pcmf32s ← set_at pcmf32s 0 (resize (Z.to_nat frame_count) zero c0);
        c1 ← pcmf32s !! 1%nat;
        pcmf32s ← set_at pcmf32s 1 (resize (Z.to_nat frame_count) zero c1);
        pcmf32s ← for_range (Z.to_nat frame_count) (split_channels stereo_data) pcmf32s;
        Some {| ok := true; out_pcmf32 := pcmf32; out_pcmf32s := pcmf32s;
                out_stderr := log |}
      else
        Some {| ok := true; out_pcmf32 := pcmf32; out_pcmf32s := pcmf32s;
                out_stderr := log |}
  end.

End DecodeAdapter.

(** ** Text to speech *)

(** What [speak_with_file] does to the outside world, in order. *)
Inductive event : Type :=
| ev_open (path : string)
| ev_write (data : string)
| ev_close
| ev_system (command : string)
| ev_stderr (line : string).

(** The operating system: whether opening a file for writing fails, and
    the status a command returns, given everything that happened before. *)
Class OS := {
  ofstream_fails : list event -> string -> bool;
  system : list event -> string -> Z;
}.

(** [std::to_string(int)]. *)
Definition to_string (v : Z) : string :=
  String.append (if v <? 0 then "-"%string else EmptyString) (decimal (Z.abs_N v)).

(** [bool speak_with_file(command, text, path, voice_id)], lines 255-270.
    [past] is what happened before the call; the result carries what has
    happened after it. *)
Definition speak_with_file `{OS} (past : list event)
    (command text path : string) (voice_id : Z) : bool * list event :=
  let past := past ++ [ev_open (c_str path)] in
  if ofstream_fails past (c_str path) then
    (false, past ++ [ev_stderr (message ["speak_with_file: failed to open speak_file"; nl]%string)])
  else
    let past := past ++ [ev_write text; ev_close] in
    let line :=
      c_str (String.append command
              (String.append " "
              (String.append (to_string voice_id)
              (String.append " " path)))) in
    let ret := system past line in
    let past := past ++ [ev_system line] in
    if negb (ret =? 0) then
      (false, past ++ [ev_stderr (message ["speak_with_file: failed to speak"; nl]%string)])
    else (true, past).

(** The commands a trace handed to [system]. *)
Definition commands_run (trace : list event) : list string :=
  omap (fun e => match e with ev_system c => Some c | _ => None end) trace.

(** ** Concrete capabilities, for evaluating the operations *)

Definition quarter : f32 := Eval cbv in div (of_Z 1) (of_Z 4).
Definition half : f32 := Eval cbv in div (of_Z 1) (of_Z 2).

(** A miniaudio whose decoder is scripted: every open succeeds and yields
    a decoder that remembers the channel count it was configured with;
    [len] is what the length query answers and [read] what a read does
    for that channel count. The resampler copies its input. *)
Definition scripted (len : Z * Z) (read : Z -> Z * list f32 * Z) : Miniaudio := {|
  ma_result := Z;
  MA_SUCCESS := 0;
  ma_result_description := fun _ => "error"%string;
  ma_format := unit;
  ma_format_f32 := tt;
  ma_linear_resampler := unit;
  ma_linear_resampler_config := unit;
  ma_linear_resampler_config_init := fun _ _ _ _ => tt;
  set_lpfOrder := fun c _ => c;
  ma_linear_resampler_init := fun _ r => (0, r);
  ma_linear_resampler_uninit := fun r => r;
  ma_linear_resampler_reset := fun r => r;
  ma_linear_resampler_get_expected_output_frame_count := fun _ n => n;
  ma_linear_resampler_process_pcm_frames := fun r input n _ => (r, input, n);
  ma_decoder := Z;
  ma_decoder_config := Z;
  ma_decoder_config_init := fun _ channels _ => channels;
  ma_decoder_init_memory := fun _ config => (0, config);
  ma_decoder_init_file := fun _ config => (0, config);
  ma_decoder_get_length_in_pcm_frames := fun _ => len;
  ma_decoder_read_pcm_frames := fun channels _ => read channels;
|}.

(** A mono source of two frames. Asked for two channels, the decoder
    copies the only channel into both, as miniaudio's channel converter
    does for a mono input. *)
Definition mono_source : Miniaudio :=
  scripted (0, 2)
    (fun channels => if channels =? 2
                     then (0, [quarter; quarter; half; half], 2)
                     else (0, [quarter; half], 2)).

(** A stereo source of two frames. *)
Definition stereo_source : Miniaudio :=
  scripted (0, 2) (fun _ => (0, [quarter; half; half; half], 2)).



(** An RNNoise that halves every sample and counts its calls. *)
Definition halving_rnnoise : RNNoise := {|
  DenoiseState := nat;
  rnnoise_process_frame := fun st frame => (S st, (fun x => mul x half) <$> frame);
|}.

(** The file-level variables when the resamplers are those of [scripted]. *)
Definition scripted_globals (M : Miniaudio) (resampler : @ma_linear_resampler M)
    (initialized : bool) : @globals M :=
  {| g_resampler_16k_to_48k := resampler;
     g_resampler_48k_to_16k := resampler;
     g_resamplers_initialized := initialized |}.

Definition ready : @globals mono_source := scripted_globals mono_source tt true.

Definition plain_build : Build := {|
  WHISPER_SAMPLE_RATE := 16000;
  WHISPER_FFMPEG := false;
  ffmpeg_decode_audio := fun _ data => (true, data);
|}.

(** A miniaudio whose second resampler cannot be initialised: the
    configuration is its input rate, and only the 16 kHz one is accepted. *)
Definition no_downsampler : Miniaudio := {|
  ma_result := Z;
  MA_SUCCESS := 0;
  ma_result_description := fun _ => "error"%string;
  ma_format := unit;
  ma_format_f32 := tt;
  ma_linear_resampler := bool;
  ma_linear_resampler_config := Z;
  ma_linear_resampler_config_init := fun _ _ rate_in _ => rate_in;
  set_lpfOrder := fun c _ => c;
  ma_linear_resampler_init :=
    fun rate_in r => if rate_in =? 16000 then (0, true) else (-1, r);
  ma_linear_resampler_uninit := fun _ => false;
  ma_linear_resampler_reset := fun r => r;
  ma_linear_resampler_get_expected_output_frame_count := fun _ n => n;
  ma_linear_resampler_process_pcm_frames := fun r input n _ => (r, input, n);
  ma_decoder := Z;
  ma_decoder_config := Z;
  ma_decoder_config_init := fun _ channels _ => channels;
  ma_decoder_init_memory := fun _ config => (-1, config);
  ma_decoder_init_file := fun _ config => (-1, config);
  ma_decoder_get_length_in_pcm_frames := fun _ => (0, 0);
  ma_decoder_read_pcm_frames := fun _ _ => (0, [], 0);
|}.

(** Its file-level variables before any initialisation. *)
Definition cold : @globals no_downsampler :=
  scripted_globals no_downsampler false false.

(** An operating system where the file [locked] cannot be opened and
    only the command [good] succeeds. *)
Definition scripted_os (locked good : string) : OS := {|
  ofstream_fails := fun _ path => String.eqb path locked;
  system := fun _ line => if String.eqb line good then 0 else 1;
|}.

(** ** Specification-side definitions *)

(** The decimal digit of a number below ten, and fixed-width fields. *)
Definition digit (n : Z) : ascii := ascii_of_nat (48 + Z.to_nat n).

Definition two_digits (n : Z) : string :=
  String (digit (n / 10)) (String (digit (n mod 10)) EmptyString).

Definition three_digits (n : Z) : string :=
  String (digit (n / 100)) (two_digits (n mod 100)).

(** The state in which [denoise_audio] enters its frame loop. *)
Definition loop_start `{RNNoise} (st : DenoiseState) (buf : list f32) : frame_state :=
  {| fs_st := st; fs_frame := replicate RNNOISE_FRAME_SIZE zero;
     fs_pcmf32_48k := buf; fs_handed := [] |}.

(** The blocks a reader sees before the end of the stream. *)
Fixpoint before_eof (stdin : list (list Byte.byte)) : list (list Byte.byte) :=
  match stdin with
  | [] => []
  | buf :: rest => if decide (length buf = 0%nat) then [] else buf :: before_eof rest
  end.


Section FrameSpec.
Context `{RNNoise}.

Definition scale_up (x : f32) : f32 := mul x (of_Z 32768).
Definition scale_down (x : f32) : f32 := div x (of_Z 32768).

(** The first [q] consecutive, non-overlapping frames of a buffer. *)
Fixpoint full_frames (q : nat) (buf : list f32) : list (list f32) :=
  match q with
  | O => []
  | S q' =>
      take RNNOISE_FRAME_SIZE buf :: full_frames q' (drop RNNOISE_FRAME_SIZE buf)
  end.

(** Frame by frame: scale up, hand to RNNoise, scale down; what follows
    the [q] frames is kept. The third component lists the frames handed
    to RNNoise. *)
Fixpoint frames_spec (q : nat) (st : DenoiseState) (buf : list f32)
  : DenoiseState * list f32 * list (list f32) :=
  match q with
  | O => (st, buf, [])
  | S q' =>
      let scaled := scale_up <$> take RNNOISE_FRAME_SIZE buf in
      let '(st', out) := rnnoise_process_frame st scaled in
      let '(st'', rest, handed) := frames_spec q' st' (drop RNNOISE_FRAME_SIZE buf) in
      (st'', (scale_down <$> out) ++ rest, scaled :: handed)
  end.

(** RNNoise stores exactly one frame for every frame it is handed. *)
Definition stores_full_frames : Prop :=
  forall st frame,
    length frame = RNNOISE_FRAME_SIZE ->
    length (rnnoise_process_frame st frame).2 = RNNOISE_FRAME_SIZE.

End FrameSpec.

(** * Properties *)

(** ** Machine integers *)

Lemma wrap_fits w z : 0 < w -> fits w z = true -> wrap w z = z.
Proof.
  intros Hw Hf. unfold fits in Hf. unfold wrap.
  apply andb_true_iff in Hf as [Hlo Hhi].
  apply Z.leb_le in Hlo. apply Z.ltb_lt in Hhi.
  assert (Hp : 2 ^ w = 2 * 2 ^ (w - 1)).
  { rewrite <- Z.pow_succ_r by lia. f_equal. lia. }
  rewrite Z.mod_small; lia.
Qed.

Lemma fits_iff w z : fits w z = true <-> - 2 ^ (w - 1) <= z < 2 ^ (w - 1).
Proof.
  unfold fits. rewrite andb_true_iff, Z.leb_le, Z.ltb_lt. reflexivity.
Qed.

Lemma wrap_range w z : 0 < w -> - 2 ^ (w - 1) <= wrap w z < 2 ^ (w - 1).
Proof.
  intros Hw. unfold wrap.
  assert (Hp : 2 ^ w = 2 * 2 ^ (w - 1)).
  { rewrite <- Z.pow_succ_r by lia. f_equal. lia. }
  assert (0 < 2 ^ (w - 1)) by (apply Z.pow_pos_nonneg; lia).
  pose proof (Z.mod_pos_bound (z + 2 ^ (w - 1)) (2 ^ w)). lia.
Qed.

(** ** binary32 samples *)

(** A stored sample compares equal to itself unless it is a NaN. *)
Lemma eqb_same (x : f32) : x <> S754_nan -> eqb x x = true.
Proof.
  intros Hnan. unfold eqb, SFeqb.
  destruct x as [[|] | [|] | | [|] m e]; try reflexivity; try contradiction;
    cbn; rewrite Z.compare_refl, Pos.compare_cont_refl; reflexivity.
Qed.

(** ** Timestamp mapper *)

Lemma value_timestamp_to_sample t n r :
  value (timestamp_to_sample t n r)
  = Z.max 0 (Z.min (wrap 32 (n - 1)) (cast 32 (wrap 64 (Z.quot (wrap 64 (t * r)) 100)))).
Proof. reflexivity. Qed.

(** C4: for a non-negative timestamp and a positive sample count, the
    index [timestamp_to_sample] returns lies in [[0, n_samples - 1]]. *)
Theorem timestamp_to_sample_clamped (t n_samples rate : Z) :
  0 <= t <= INT64_MAX ->
  0 < n_samples <= INT_MAX ->
  0 <= value (timestamp_to_sample t n_samples rate) <= n_samples - 1.
Proof.
  intros _ Hn. rewrite value_timestamp_to_sample.
  rewrite (wrap_fits 32 (n_samples - 1)); [lia | lia |].
  apply fits_iff. unfold INT_MAX in Hn. lia.
Qed.

Lemma timestamp_to_sample_clamped_witness :
  0 <= value (timestamp_to_sample 250 16000 16000) <= 16000 - 1.
Proof.
  apply timestamp_to_sample_clamped; unfold INT64_MAX, INT_MAX; lia.
Defined.

(** C10, as the source has it: for a sample count in [(INT_MIN, 0]] the
    clamp collapses and [timestamp_to_sample] returns 0, whatever the
    timestamp and the rate. *)
Theorem timestamp_to_sample_empty (t n_samples rate : Z) :
  INT_MIN < n_samples <= 0 ->
  value (timestamp_to_sample t n_samples rate) = 0.
Proof.
  intros Hn. rewrite value_timestamp_to_sample.
  rewrite (wrap_fits 32 (n_samples - 1)); [lia | lia |].
  apply fits_iff. unfold INT_MIN in Hn. lia.
Qed.

Lemma timestamp_to_sample_empty_witness :
  value (timestamp_to_sample 100 (-5) 16000) = 0.
Proof.
  apply timestamp_to_sample_empty. unfold INT_MIN. lia.
Defined.

(** C10 fails at [n_samples = INT_MIN]: [n_samples - 1] leaves the range
    of [int], wraps to [INT_MAX], and the clamp lets the index through. *)
Lemma timestamp_to_sample_int_min :
  INT_MIN <= 0 /\
  timestamp_to_sample 100 INT_MIN 16000 = {| value := 16000; overflowed := true |} /\
  value (timestamp_to_sample 100 INT_MIN 16000) <> 0.
Proof. vm_compute. repeat split; discriminate. Qed.

(** C6: the three reference timestamps, none of them with an overflow. *)
Theorem to_timestamp_reference_cases :
  to_timestamp 0 false = {| value := "00:00:00.000"%string; overflowed := false |} /\
  to_timestamp 6000 false = {| value := "00:01:00.000"%string; overflowed := false |} /\
  to_timestamp 500 true = {| value := "00:00:05,000"%string; overflowed := false |}.
Proof. repeat split; vm_compute; reflexivity. Qed.

Lemma arith_fits w z : 0 < w -> fits w z = true -> arith w z = ret z.
Proof.
  intros Hw Hf. unfold arith, ret. rewrite Hf, (wrap_fits w z) by assumption.
  reflexivity.
Qed.

Lemma ck_bind_ret {A B} (a : A) (k : A -> ck B) : (ret a ≫= k) = k a.
Proof.
  unfold mbind, ck_bind, bind, ret. simpl. destruct (k a). reflexivity.
Qed.

Ltac quot_rem_bounds :=
  apply fits_iff; unfold INT64_MIN, INT64_MAX in *;
  Z.to_euclidean_division_equations; lia.

(** C5, as far as [int64_t] reaches: when [t * 10] is representable, no
    operation of [to_timestamp] overflows, and the four fields printed
    are the hours, minutes, seconds and milliseconds of [t * 10] ms. *)
Theorem to_timestamp_no_overflow (t : Z) (comma : bool) :
  INT64_MIN <= t * 10 <= INT64_MAX ->
  to_timestamp t comma =
    {| value := format_timestamp (Z.quot (t * 10) 3600000)
                  (Z.quot (Z.rem (t * 10) 3600000) 60000)
                  (Z.quot (Z.rem (t * 10) 60000) 1000)
                  comma (Z.rem (t * 10) 1000);
       overflowed := false |}.
Proof.
  intros Ht. unfold to_timestamp.
  change (1000 * 60 * 60) with 3600000. change (1000 * 60) with 60000.
  set (m := t * 10) in *.
  rewrite (arith_fits 64 m), ck_bind_ret by (lia || quot_rem_bounds).
  rewrite (arith_fits 64 (Z.quot m 3600000)), ck_bind_ret by (lia || quot_rem_bounds).
  rewrite (arith_fits 64 (Z.quot m 3600000 * 3600000)), ck_bind_ret
    by (lia || quot_rem_bounds).
  replace (m - Z.quot m 3600000 * 3600000) with (Z.rem m 3600000)
    by (Z.to_euclidean_division_equations; lia).
  set (m1 := Z.rem m 3600000).
  rewrite (arith_fits 64 m1), ck_bind_ret by (lia || (subst m1; quot_rem_bounds)).
  rewrite (arith_fits 64 (Z.quot m1 60000)), ck_bind_ret
    by (lia || (subst m1; quot_rem_bounds)).
  rewrite (arith_fits 64 (Z.quot m1 60000 * 60000)), ck_bind_ret
    by (lia || (subst m1; quot_rem_bounds)).
  replace (m1 - Z.quot m1 60000 * 60000) with (Z.rem m 60000)
    by (subst m1; Z.to_euclidean_division_equations; lia).
  set (m2 := Z.rem m 60000).
  rewrite (arith_fits 64 m2), ck_bind_ret by (lia || (subst m2; quot_rem_bounds)).
  rewrite (arith_fits 64 (Z.quot m2 1000)), ck_bind_ret
    by (lia || (subst m2; quot_rem_bounds)).
  rewrite (arith_fits 64 (Z.quot m2 1000 * 1000)), ck_bind_ret
    by (lia || (subst m2; quot_rem_bounds)).
  replace (m2 - Z.quot m2 1000 * 1000) with (Z.rem m 1000)
    by (subst m2; Z.to_euclidean_division_equations; lia).
  rewrite (arith_fits 64 (Z.rem m 1000)), ck_bind_ret by (lia || quot_rem_bounds).
  reflexivity.
Qed.

Lemma to_timestamp_no_overflow_witness :
  INT64_MIN <= 360000000 * 10 <= INT64_MAX /\
  to_timestamp 360000000 false =
    {| value := "1000:00:00.000"%string; overflowed := false |}.
Proof.
  split.
  - unfold INT64_MIN, INT64_MAX. lia.
  - apply (to_timestamp_no_overflow 360000000 false).
    unfold INT64_MIN, INT64_MAX. lia.
Defined.

(** C5 fails at the top of the [int64_t] range: [t * 10] overflows and
    the string printed is not a time. *)
Lemma to_timestamp_overflows_at_int64_max :
  INT64_MIN <= INT64_MAX <= INT64_MAX /\
  to_timestamp INT64_MAX false =
    {| value := "00:00:00.-10"%string; overflowed := true |}.
Proof. split; [unfold INT64_MIN, INT64_MAX; lia | vm_compute; reflexivity]. Qed.

(** ** Resampler lifecycle and conversion *)

(** C9: [init_resamplers] on an initialised state changes nothing and
    returns [true]. *)
Theorem init_resamplers_idempotent `{Miniaudio} `{Build} (g : globals) :
  g_resamplers_initialized g = true ->
  init_resamplers g = (true, g).
Proof.
  intros Hinit. unfold init_resamplers. rewrite Hinit. reflexivity.
Qed.

Lemma init_resamplers_idempotent_witness :
  @init_resamplers mono_source plain_build ready = (true, ready).
Proof.
  apply (@init_resamplers_idempotent mono_source plain_build ready).
  reflexivity.
Defined.

(** A successful [init_resamplers] leaves the state initialised, so a
    second call before teardown changes nothing and succeeds. *)
Lemma init_resamplers_twice `{Miniaudio} `{Build} (g g' : globals) :
  init_resamplers g = (true, g') ->
  init_resamplers g' = (true, g').
Proof.
  intros Hfirst.
  assert (Hready : g_resamplers_initialized g' = true).
  { unfold init_resamplers in Hfirst.
    destruct (g_resamplers_initialized g) eqn:Hg.
    - injection Hfirst as <-. exact Hg.
    - destruct (ma_linear_resampler_init _ (g_resampler_16k_to_48k g)) as [r_up up].
      destruct (decide (r_up <> MA_SUCCESS)); [discriminate |].
      destruct (ma_linear_resampler_init _ (g_resampler_48k_to_16k g)) as [r_down down].
      destruct (decide (r_down <> MA_SUCCESS)); [discriminate |].
      injection Hfirst as <-. reflexivity. }
  unfold init_resamplers. rewrite Hready. reflexivity.
Qed.

(** C8: an empty input comes back empty from every resampler, and while
    the resamplers are not initialised every input comes back unchanged;
    in both cases [resample_audio] returns normally and leaves the
    resampler alone. *)
Theorem resample_audio_passthrough `{Miniaudio} :
  (forall (initialized : bool) (resampler : ma_linear_resampler),
      resample_audio initialized resampler [] = Some (resampler, [])) /\
  (forall (resampler : ma_linear_resampler) (input : list f32),
      resample_audio false resampler input = Some (resampler, input)).
Proof.
  split.
  - intros initialized resampler. reflexivity.
  - intros resampler input. unfold resample_audio.
    rewrite orb_true_r. reflexivity.
Qed.

(** ** Loops *)

(** The loop rule: an invariant that every iteration re-establishes
    holds when the loop ends, and the loop does end normally. *)
Lemma for_loop_inv {St} (P : nat -> St -> Prop) (body : nat -> St -> option St)
    (n start : nat) (s : St) :
  P start s ->
  (forall i s, (start <= i < start + n)%nat -> P i s ->
               exists s', body i s = Some s' /\ P (S i) s') ->
  exists s', for_loop n start body s = Some s' /\ P (start + n)%nat s'.
Proof.
  revert start s. induction n as [| n IH]; intros start s Hs Hstep.
  - exists s. split; [reflexivity |]. rewrite Nat.add_0_r. exact Hs.
  - destruct (Hstep start s ltac:(lia) Hs) as (s1 & Hbody & Hs1).
    destruct (IH (S start) s1 Hs1) as (s2 & Hloop & Hs2).
    { intros i s' Hi. apply Hstep. lia. }
    exists s2. split.
    + simpl. rewrite Hbody. exact Hloop.
    + replace (start + S n)%nat with (S start + n)%nat by lia.
      exact Hs2.
Qed.

Lemma set_at_Some {A} (v : list A) (i : nat) (x : A) :
  (i < length v)%nat -> set_at v i x = Some (<[i := x]> v).
Proof. intros Hi. unfold set_at. rewrite decide_True; auto. Qed.

Lemma write_at_full {A} (v data : list A) :
  length data = length v -> write_at v data = Some data.
Proof.
  intros Hlen. unfold write_at. rewrite decide_True by lia.
  rewrite drop_ge by lia. rewrite app_nil_r. reflexivity.
Qed.

(** ** Frame denoiser *)

Section FrameLoop.
Context `{RNNoise}.

(** The first inner loop, lines 110-112, fills [frame] with the scaled
    samples of the window at offset [i]. *)
Lemma scale_loop (buf frame0 : list f32) (i : nat) :
  length frame0 = RNNOISE_FRAME_SIZE ->
  (i + RNNOISE_FRAME_SIZE <= length buf)%nat ->
  for_range RNNOISE_FRAME_SIZE
    (fun j frame => x ← buf !! (i + j)%nat; set_at frame j (mul x (of_Z 32768)))
    frame0
  = Some (scale_up <$> take RNNOISE_FRAME_SIZE (drop i buf)).
Proof.
  unfold RNNOISE_FRAME_SIZE. intros Hlen Hi. unfold for_range.
  edestruct (for_loop_inv
    (fun j fr => length fr = 480%nat /\
       forall k, (k < j)%nat -> fr !! k = scale_up <$> buf !! (i + k)%nat))
    as (fr & Hrun & Hlen' & Hfr); [| | rewrite Hrun].
  - split; [exact Hlen | intros k Hk; lia].
  - intros j fr Hj [Hl Hk].
    destruct (lookup_lt_is_Some_2 buf (i + j)) as [x Hx]; [lia |].
    exists (<[j := scale_up x]> fr). split; [| split].
    + rewrite Hx. cbn. apply set_at_Some. lia.
    + rewrite length_insert. exact Hl.
    + intros k Hk'. destruct (decide (k = j)) as [-> | Hne].
      * rewrite list_lookup_insert_eq by lia. rewrite Hx. reflexivity.
      * rewrite list_lookup_insert_ne by congruence. apply Hk. lia.
  - f_equal. apply list_eq. intros k.
    destruct (decide (k < 480)%nat) as [Hk | Hk].
    + rewrite Hfr by lia.
      rewrite list_lookup_fmap, lookup_take_lt, lookup_drop by lia. reflexivity.
    + rewrite !lookup_ge_None_2; [reflexivity | |].
      * rewrite length_fmap, length_take, length_drop. lia.
      * lia.
Qed.

(** The second inner loop, lines 118-120, stores the scaled-down frame
    over the window at offset [i] and touches nothing else. *)
Lemma copy_back_loop (buf frame : list f32) (i : nat) :
  length frame = RNNOISE_FRAME_SIZE ->
  (i + RNNOISE_FRAME_SIZE <= length buf)%nat ->
  for_range RNNOISE_FRAME_SIZE
    (fun j pcm => x ← frame !! j; set_at pcm (i + j)%nat (div x (of_Z 32768)))
    buf
  = Some (take i buf ++ (scale_down <$> frame) ++ drop (i + RNNOISE_FRAME_SIZE) buf).
Proof.
  unfold RNNOISE_FRAME_SIZE. intros Hlen Hi. unfold for_range.
  edestruct (for_loop_inv
    (fun j pcm => length pcm = length buf /\
       (forall k, (k < j)%nat -> pcm !! (i + k)%nat = scale_down <$> frame !! k) /\
       (forall p, (p < i \/ i + j <= p)%nat -> pcm !! p = buf !! p)))
    as (pcm & Hrun & Hlen' & Hin & Hout); [| | rewrite Hrun].
  - split; [reflexivity | split; [intros k Hk; lia | reflexivity]].
  - intros j pcm Hj (Hl & Hin & Hout).
    destruct (lookup_lt_is_Some_2 frame j) as [x Hx]; [lia |].
    exists (<[(i + j)%nat := scale_down x]> pcm). split; [| split; [| split]].
    + rewrite Hx. cbn. apply set_at_Some. lia.
    + rewrite length_insert. exact Hl.
    + intros k Hk. destruct (decide (k = j)) as [-> | Hne].
      * rewrite list_lookup_insert_eq by lia. rewrite Hx. reflexivity.
      * rewrite list_lookup_insert_ne by lia. apply Hin. lia.
    + intros p Hp. rewrite list_lookup_insert_ne by lia. apply Hout. lia.
  - f_equal. apply list_eq. intros p.
    destruct (decide (p < i)%nat) as [Hp | Hp].
    + rewrite Hout by lia. rewrite lookup_app_l by (rewrite length_take; lia).
      rewrite lookup_take_lt by lia. reflexivity.
    + rewrite lookup_app_r by (rewrite length_take; lia).
      rewrite length_take, Nat.min_l by lia.
      destruct (decide (p < i + 480)%nat) as [Hq | Hq].
      * replace p with (i + (p - i))%nat at 1 by lia.
        rewrite Hin by lia.
        rewrite lookup_app_l by (rewrite length_fmap; lia).
        rewrite list_lookup_fmap. reflexivity.
      * rewrite Hout by lia.
        rewrite lookup_app_r by (rewrite length_fmap; lia).
        rewrite length_fmap, lookup_drop. f_equal. lia.
Qed.

(** One iteration of the frame loop. *)
Lemma denoise_frame_step (i : nat) (s : frame_state) :
  stores_full_frames ->
  length (fs_frame s) = RNNOISE_FRAME_SIZE ->
  (i + RNNOISE_FRAME_SIZE <= length (fs_pcmf32_48k s))%nat ->
  let scaled := scale_up <$> take RNNOISE_FRAME_SIZE (drop i (fs_pcmf32_48k s)) in
  let r := rnnoise_process_frame (fs_st s) scaled in
  denoise_frame i s =
    Some {| fs_st := r.1; fs_frame := r.2;
            fs_pcmf32_48k := take i (fs_pcmf32_48k s) ++ (scale_down <$> r.2) ++
                             drop (i + RNNOISE_FRAME_SIZE) (fs_pcmf32_48k s);
            fs_handed := fs_handed s ++ [scaled] |}.
Proof.
  intros Hrn Hframe Hi scaled r. unfold denoise_frame.
  rewrite (scale_loop _ _ i Hframe Hi). cbn [mbind option_bind].
  fold scaled. fold r.
  assert (Hscaled : length scaled = RNNOISE_FRAME_SIZE).
  { unfold scaled. rewrite length_fmap, length_take, length_drop.
    unfold RNNOISE_FRAME_SIZE in *. lia. }
  pose proof (Hrn (fs_st s) scaled Hscaled) as Hout. fold r in Hout.
  destruct r as [st out] eqn:Hr. cbn [fst snd] in *.
  rewrite (write_at_full scaled out) by congruence. cbn [mbind option_bind].
  rewrite (copy_back_loop _ _ i Hout Hi). reflexivity.
Qed.

End FrameLoop.

Section FrameLoopRun.
Context `{RNNoise}.
Hypothesis rnnoise_full : stores_full_frames.

(** The frame loop from offset [i] on: it ends normally after
    [(size - i) / 480] frames and computes what [frames_spec] says on
    the rest of the buffer. *)
Lemma denoise_frames_run (q fuel i : nat) (s : frame_state) :
  length (fs_frame s) = RNNOISE_FRAME_SIZE ->
  (i <= length (fs_pcmf32_48k s))%nat ->
  ((length (fs_pcmf32_48k s) - i) / RNNOISE_FRAME_SIZE)%nat = q ->
  (q < fuel)%nat ->
  let r := frames_spec q (fs_st s) (drop i (fs_pcmf32_48k s)) in
  exists s',
    denoise_frames fuel i s = Some s' /\
    fs_st s' = r.1.1 /\
    fs_pcmf32_48k s' = take i (fs_pcmf32_48k s) ++ r.1.2 /\
    fs_handed s' = fs_handed s ++ r.2.
Proof.
  revert fuel i s. unfold RNNOISE_FRAME_SIZE.
  induction q as [| q IH]; intros fuel i s Hframe Hi Hq Hfuel.
  - destruct fuel as [| fuel]; [lia |]. exists s. cbn.
    rewrite decide_False.
    2:{ unfold RNNOISE_FRAME_SIZE. intros Hc.
        assert (480 <= length (fs_pcmf32_48k s) - i)%nat as Hge by lia.
        apply (Nat.Div0.div_le_mono _ _ 480) in Hge.
        rewrite Nat.div_same in Hge by lia. lia. }
    rewrite take_drop, app_nil_r. auto.
  - destruct fuel as [| fuel]; [lia |].
    assert (Hroom : (i + 480 <= length (fs_pcmf32_48k s))%nat).
    { destruct (decide (i + 480 <= length (fs_pcmf32_48k s))%nat); [assumption |].
      rewrite Nat.div_small in Hq by lia. lia. }
    cbn [denoise_frames]. rewrite decide_True by exact Hroom.
    rewrite (denoise_frame_step i s rnnoise_full Hframe Hroom).
    cbn [mbind option_bind].
    set (scaled := scale_up <$> take RNNOISE_FRAME_SIZE (drop i (fs_pcmf32_48k s))) in *.
    assert (Hscaled : length scaled = 480%nat).
    { unfold scaled, RNNOISE_FRAME_SIZE.
      rewrite length_fmap, length_take, length_drop. lia. }
    pose proof (rnnoise_full (fs_st s) scaled Hscaled) as Hout.
    unfold RNNOISE_FRAME_SIZE in Hout.
    cbn [frames_spec]. fold scaled.
    destruct (rnnoise_process_frame (fs_st s) scaled) as [st1 out] eqn:Hcall.
    cbn [fst snd] in *.
    set (s1 := {| fs_st := st1; fs_frame := out;
                  fs_pcmf32_48k := take i (fs_pcmf32_48k s) ++ (scale_down <$> out) ++
                                   drop (i + RNNOISE_FRAME_SIZE) (fs_pcmf32_48k s);
                  fs_handed := fs_handed s ++ [scaled] |}).
    assert (Hlen1 : length (fs_pcmf32_48k s1) = length (fs_pcmf32_48k s)).
    { unfold s1, RNNOISE_FRAME_SIZE. cbn [fs_pcmf32_48k].
      rewrite !length_app, length_take, length_fmap, length_drop. lia. }
    assert (Hdrop1 : drop (i + 480) (fs_pcmf32_48k s1) = drop (i + 480) (fs_pcmf32_48k s)).
    { unfold s1, RNNOISE_FRAME_SIZE. cbn [fs_pcmf32_48k].
      rewrite app_assoc. apply drop_app_length'.
      rewrite length_app, length_take, length_fmap. lia. }
    assert (Htake1 : take (i + 480) (fs_pcmf32_48k s1)
                     = take i (fs_pcmf32_48k s) ++ (scale_down <$> out)).
    { unfold s1, RNNOISE_FRAME_SIZE. cbn [fs_pcmf32_48k].
      rewrite app_assoc. apply take_app_length'.
      rewrite length_app, length_take, length_fmap. lia. }
    destruct (IH fuel (i + 480)%nat s1) as (s' & Hrun & Hst & Hpcm & Hhanded).
    + exact Hout.
    + lia.
    + rewrite Hlen1.
      replace (length (fs_pcmf32_48k s) - i)%nat
        with ((length (fs_pcmf32_48k s) - (i + 480)) + 1 * 480)%nat in Hq by lia.
      rewrite Nat.div_add in Hq by lia. lia.
    + lia.
    + exists s'. unfold RNNOISE_FRAME_SIZE in *. rewrite Hrun.
      rewrite Hdrop1, Htake1 in *. rewrite drop_drop.
      change (fs_st s1) with st1 in *.
      change (fs_handed s1) with (fs_handed s ++ [scaled]) in *.
      destruct (frames_spec q st1 (drop (i + 480) (fs_pcmf32_48k s)))
        as [[st2 rest] handed] eqn:Hspec.
      cbn [fst snd fs_st fs_handed] in *.
      repeat split.
      * exact Hst.
      * rewrite Hpcm, <- app_assoc. reflexivity.
      * rewrite Hhanded, <- app_assoc. reflexivity.
Qed.

(** The frames handed to RNNoise are the scaled full frames, in order. *)
Lemma frames_spec_handed (q : nat) (st : DenoiseState) (buf : list f32) :
  (frames_spec q st buf).2 = (fun frame : list f32 => scale_up <$> frame) <$> full_frames q buf.
Proof.
  revert st buf. induction q as [| q IH]; intros st buf; [reflexivity |].
  cbn [frames_spec full_frames].
  destruct (rnnoise_process_frame st _) as [st1 out].
  specialize (IH st1 (drop RNNOISE_FRAME_SIZE buf)).
  destruct (frames_spec q st1 _) as [[st2 rest] handed].
  cbn [snd] in *. rewrite IH. reflexivity.
Qed.

(** The frames keep the length of the buffer and leave what follows
    them as it was. *)
Lemma frames_spec_tail (q : nat) (st : DenoiseState) (buf : list f32) :
  (q * RNNOISE_FRAME_SIZE <= length buf)%nat ->
  length (frames_spec q st buf).1.2 = length buf /\
  drop (q * RNNOISE_FRAME_SIZE) (frames_spec q st buf).1.2
    = drop (q * RNNOISE_FRAME_SIZE) buf.
Proof.
  revert st buf. unfold RNNOISE_FRAME_SIZE.
  induction q as [| q IH]; intros st buf Hlen; [split; reflexivity |].
  cbn [frames_spec].
  set (scaled := scale_up <$> take RNNOISE_FRAME_SIZE buf).
  assert (Hscaled : length scaled = 480%nat).
  { unfold scaled, RNNOISE_FRAME_SIZE. rewrite length_fmap, length_take. lia. }
  pose proof (rnnoise_full st scaled Hscaled) as Hout.
  unfold RNNOISE_FRAME_SIZE in *.
  destruct (rnnoise_process_frame st scaled) as [st1 out].
  destruct (IH st1 (drop 480 buf)) as [IHlen IHdrop].
  { rewrite length_drop. lia. }
  destruct (frames_spec q st1 (drop 480 buf)) as [[st2 rest] handed].
  cbn [fst snd] in *. split.
  - rewrite length_app, length_fmap, IHlen, length_drop. lia.
  - replace (S q * 480)%nat with (480 + q * 480)%nat by lia.
    rewrite <- !drop_drop.
    rewrite (drop_app_length' (scale_down <$> out) rest 480)
      by (rewrite length_fmap; lia).
    exact IHdrop.
Qed.

End FrameLoopRun.

(** C7: [denoise_audio] cuts the upsampled buffer [buf] into its
    [size / 480] consecutive, non-overlapping full frames. Each is scaled
    by 32768, handed to RNNoise, and what RNNoise stores is divided by
    32768 and put back in place ([frames_spec]). Nothing else is handed
    to RNNoise, the buffer keeps its length, and the samples after the
    last full frame reach the downsampling step as they were. *)
Theorem denoise_audio_frames `{Miniaudio} `{RNNoise} (g : globals)
    (st : DenoiseState) (pcmf32 : list f32)
    (up : ma_linear_resampler) (buf : list f32) :
  stores_full_frames ->
  pcmf32 <> [] ->
  resample_audio (g_resamplers_initialized g) (g_resampler_16k_to_48k g) pcmf32
    = Some (up, buf) ->
  let q := (length buf / RNNOISE_FRAME_SIZE)%nat in
  let r := frames_spec q st buf in
  r.2 = (fun frame : list f32 => scale_up <$> frame) <$> full_frames q buf /\
  length r.1.2 = length buf /\
  drop (q * RNNOISE_FRAME_SIZE) r.1.2 = drop (q * RNNOISE_FRAME_SIZE) buf /\
  denoise_audio g st pcmf32 =
    ('(down, pcmf32') ← resample_audio (g_resamplers_initialized g)
                          (g_resampler_48k_to_16k g) r.1.2;
     Some ({| g_resampler_16k_to_48k := up;
              g_resampler_48k_to_16k := down;
              g_resamplers_initialized := g_resamplers_initialized g |},
           r.1.1, pcmf32', r.2)).
Proof.
  intros Hrn Hne Hup q r.
  assert (Hq : (q * RNNOISE_FRAME_SIZE <= length buf)%nat).
  { unfold q, RNNOISE_FRAME_SIZE.
    pose proof (Nat.Div0.mul_div_le (length buf) 480). lia. }
  destruct (frames_spec_tail Hrn q st buf Hq) as [Hlen Htail].
  split; [apply frames_spec_handed | split; [exact Hlen | split; [exact Htail |]]].
  unfold denoise_audio. rewrite bool_decide_eq_false_2 by exact Hne.
  rewrite Hup. cbn [mbind option_bind].
  set (s0 := {| fs_st := st; fs_frame := replicate RNNOISE_FRAME_SIZE zero;
                fs_pcmf32_48k := buf; fs_handed := [] |}).
  destruct (denoise_frames_run Hrn q (S q) 0 s0) as (s' & Hrun & Hst & Hpcm & Hhanded).
  - apply length_replicate.
  - lia.
  - cbn [s0 fs_pcmf32_48k]. rewrite Nat.sub_0_r. reflexivity.
  - lia.
  - fold q. rewrite Hrun. cbn [mbind option_bind].
    cbn [s0 fs_pcmf32_48k fs_st fs_handed] in Hst, Hpcm, Hhanded.
    rewrite drop_0 in *. rewrite take_0, app_nil_l in Hpcm.
    fold r in Hst, Hpcm, Hhanded. rewrite Hst, Hpcm, Hhanded. reflexivity.
Qed.

Lemma denoise_audio_frames_witness :
  let pcmf32 := replicate 481 quarter in
  let q := (length pcmf32 / RNNOISE_FRAME_SIZE)%nat in
  let r := @frames_spec halving_rnnoise q 0%nat pcmf32 in
  r.2 = (fun frame : list f32 => scale_up <$> frame) <$> full_frames q pcmf32 /\
  length r.1.2 = length pcmf32 /\
  drop (q * RNNOISE_FRAME_SIZE) r.1.2 = drop (q * RNNOISE_FRAME_SIZE) pcmf32 /\
  @denoise_audio mono_source halving_rnnoise ready 0%nat pcmf32 =
    ('(down, pcmf32') ← @resample_audio mono_source true
                          (g_resampler_48k_to_16k ready) r.1.2;
     Some ({| g_resampler_16k_to_48k := g_resampler_16k_to_48k ready;
              g_resampler_48k_to_16k := down;
              g_resamplers_initialized := true |},
           r.1.1, pcmf32', r.2)).
Proof.
  intros pcmf32 q r.
  apply (@denoise_audio_frames mono_source halving_rnnoise ready 0%nat pcmf32
           (g_resampler_16k_to_48k ready) pcmf32).
  - intros st frame Hlen. cbn. rewrite length_fmap. exact Hlen.
  - discriminate.
  - vm_compute. reflexivity.
Defined.

(** On 481 samples one frame is handed to RNNoise, scaled by 32768; the
    halved frame comes back scaled down and the last sample is kept. *)
Example denoise_audio_481 :
  @denoise_audio mono_source halving_rnnoise ready 0%nat (replicate 481 quarter)
  = Some (ready, 1%nat,
          replicate 480 (div (of_Z 1) (of_Z 8)) ++ [quarter],
          [replicate 480 (of_Z 8192)]).
Proof. vm_compute. reflexivity. Qed.

(** ** Decode adapter *)

Lemma set_at_length {A} (v v' : list A) (i : nat) (x : A) :
  set_at v i x = Some v' -> length v' = length v.
Proof.
  unfold set_at. destruct (decide (i < length v)%nat); [| discriminate].
  intros [= <-]. apply length_insert.
Qed.

(** Below [2 ^ 63] frames the index arithmetic of the stereo loops does
    not wrap. *)
Lemma stereo_index (i : nat) (frame_count : Z) :
  (i < Z.to_nat frame_count)%nat -> 2 * frame_count < 2 ^ 64 ->
  Z.to_nat (u64 (2 * Z.of_nat i)) = (2 * i)%nat /\
  Z.to_nat (u64 (u64 (2 * Z.of_nat i) + 1)) = (2 * i + 1)%nat.
Proof.
  intros Hi Hfc. unfold u64.
  rewrite (Z.mod_small (2 * Z.of_nat i)) by lia.
  rewrite Z.mod_small by lia. lia.
Qed.

Section StereoLoops.
Variables (stereo_data : list f32) (frame_count : Z).
Hypothesis no_wrap : 2 * frame_count < 2 ^ 64.
Hypothesis interleaved : length stereo_data = (2 * Z.to_nat frame_count)%nat.

(** Lines 216-218: every frame of the mono buffer becomes the sum of
    the two samples of that frame. *)
Lemma sum_channels_loop (pcmf32 : list f32) :
  length pcmf32 = Z.to_nat frame_count ->
  exists mono,
    for_range (Z.to_nat frame_count) (sum_channels stereo_data) pcmf32 = Some mono /\
    length mono = Z.to_nat frame_count /\
    forall i, (i < Z.to_nat frame_count)%nat ->
      exists l r, stereo_data !! (2 * i)%nat = Some l /\
                  stereo_data !! (2 * i + 1)%nat = Some r /\
                  mono !! i = Some (add l r).
Proof.
  intros Hlen. unfold for_range.
  edestruct (for_loop_inv
    (fun i pcm => length pcm = Z.to_nat frame_count /\
       forall k, (k < i)%nat ->
         exists l r, stereo_data !! (2 * k)%nat = Some l /\
                     stereo_data !! (2 * k + 1)%nat = Some r /\
                     pcm !! k = Some (add l r)))
    as (mono & Hrun & Hl & Hsum); [| | exists mono; eauto].
  - split; [exact Hlen | intros k Hk; lia].
  - intros i pcm Hi [Hl Hsum].
    destruct (stereo_index i frame_count ltac:(lia) no_wrap) as [Hleft Hright].
    destruct (lookup_lt_is_Some_2 stereo_data (2 * i)) as [l Hlv]; [lia |].
    destruct (lookup_lt_is_Some_2 stereo_data (2 * i + 1)) as [r Hrv]; [lia |].
    exists (<[i := add l r]> pcm). split; [| split].
    + unfold sum_channels. rewrite Hleft, Hright, Hlv, Hrv. cbn.
      apply set_at_Some. lia.
    + rewrite length_insert. exact Hl.
    + intros k Hk. destruct (decide (k = i)) as [-> | Hne].
      * exists l, r. rewrite list_lookup_insert_eq by lia. auto.
      * destruct (Hsum k ltac:(lia)) as (l' & r' & ? & ? & ?).
        exists l', r'. rewrite list_lookup_insert_ne by congruence. auto.
Qed.

(** Lines 223-226: the two channels receive the two samples of every
    frame. *)
Lemma split_channels_loop (c0 c1 : list f32) :
  length c0 = Z.to_nat frame_count ->
  length c1 = Z.to_nat frame_count ->
  exists left right,
    for_range (Z.to_nat frame_count) (split_channels stereo_data) [c0; c1]
      = Some [left; right] /\
    length left = Z.to_nat frame_count /\
    length right = Z.to_nat frame_count /\
    forall i, (i < Z.to_nat frame_count)%nat ->
      exists l r, stereo_data !! (2 * i)%nat = Some l /\
                  stereo_data !! (2 * i + 1)%nat = Some r /\
                  left !! i = Some l /\ right !! i = Some r.
Proof.
  intros Hc0 Hc1. unfold for_range.
  edestruct (for_loop_inv
    (fun i (s : list (list f32)) => exists left right,
       s = [left; right] /\
       length left = Z.to_nat frame_count /\
       length right = Z.to_nat frame_count /\
       forall k, (k < i)%nat ->
         exists l r, stereo_data !! (2 * k)%nat = Some l /\
                     stereo_data !! (2 * k + 1)%nat = Some r /\
                     left !! k = Some l /\ right !! k = Some r))
    as (s & Hrun & left & right & -> & Hl & Hr & Hsplit);
    [| | exists left, right; eauto].
  - exists c0, c1. repeat split; auto. intros k Hk. lia.
  - intros i s Hi (left & right & -> & Hl & Hr & Hsplit).
    destruct (stereo_index i frame_count ltac:(lia) no_wrap) as [Hleft Hright].
    destruct (lookup_lt_is_Some_2 stereo_data (2 * i)) as [l Hlv]; [lia |].
    destruct (lookup_lt_is_Some_2 stereo_data (2 * i + 1)) as [r Hrv]; [lia |].
    exists [<[i := l]> left; <[i := r]> right]. split.
    + unfold split_channels. rewrite Hleft, Hright, Hlv, Hrv. cbn.
      rewrite (set_at_Some left) by lia. cbn.
      rewrite (set_at_Some [left; right] 0) by (cbn; lia). cbn.
      rewrite (set_at_Some right) by lia. cbn.
      rewrite set_at_Some by (cbn; lia). reflexivity.
    + exists (<[i := l]> left), (<[i := r]> right).
      rewrite !length_insert. repeat split; auto.
      intros k Hk. destruct (decide (k = i)) as [-> | Hne].
      * exists l, r. rewrite !list_lookup_insert_eq by lia. auto.
      * destruct (Hsplit k ltac:(lia)) as (l' & r' & ? & ? & ? & ?).
        exists l', r'. rewrite !list_lookup_insert_ne by congruence. auto.
Qed.

End StereoLoops.

Lemma resize_two {A} (x : A) (v : list A) : exists a b, resize 2 x v = [a; b].
Proof.
  destruct v as [| a [| b v]]; cbn; rewrite ?resize_0; eexists _, _; reflexivity.
Qed.

Lemma decide_success `{Miniaudio} {A} (x y : A) :
  (if decide (MA_SUCCESS <> MA_SUCCESS) then x else y) = y.
Proof. rewrite decide_False; [reflexivity | intros Hc; apply Hc; reflexivity]. Qed.

(** C2: when the decoder, configured for two channels, announces
    [frame_count] frames and stores that many interleaved frames,
    [read_audio_data] with [stereo] set returns [true] with two channels
    of [frame_count] samples holding the samples of channel 0 and of
    channel 1, and a mono buffer of [frame_count] samples whose every
    sample is the binary32 sum of the two. *)
Theorem read_audio_data_stereo `{Miniaudio} `{Build}
    (stdin : list (list Byte.byte)) (fname : string)
    (pcmf32 : list f32) (pcmf32s : list (list f32))
    (decoder : ma_decoder) (log : list string)
    (frame_count : Z) (stereo_data : list f32) (frames_read : Z) :
  open_decoder stdin fname
    (ma_decoder_config_init ma_format_f32 2 WHISPER_SAMPLE_RATE) = (Some decoder, log) ->
  ma_decoder_get_length_in_pcm_frames decoder = (MA_SUCCESS, frame_count) ->
  ma_decoder_read_pcm_frames decoder frame_count = (MA_SUCCESS, stereo_data, frames_read) ->
  0 <= frame_count -> 2 * frame_count < 2 ^ 64 ->
  length stereo_data = (2 * Z.to_nat frame_count)%nat ->
  exists mono left right,
    read_audio_data stdin fname pcmf32 pcmf32s true =
      Some {| ok := true; out_pcmf32 := mono; out_pcmf32s := [left; right];
              out_stderr := log |} /\
    length mono = Z.to_nat frame_count /\
    length left = Z.to_nat frame_count /\
    length right = Z.to_nat frame_count /\
    forall i, (i < Z.to_nat frame_count)%nat ->
      exists l r,
        stereo_data !! (2 * i)%nat = Some l /\
        stereo_data !! (2 * i + 1)%nat = Some r /\
        left !! i = Some l /\ right !! i = Some r /\
        mono !! i = Some (add l r).
Proof.
  intros Hopen Hlen Hread Hpos Hwrap Hdata.
  unfold read_audio_data. rewrite Hopen, Hlen, decide_success, Hread.
  assert (Hsize : Z.to_nat (u64 (frame_count * 2)) = (2 * Z.to_nat frame_count)%nat).
  { unfold u64. rewrite Z.mod_small by lia. lia. }
  rewrite Hsize, write_at_full by (rewrite length_resize; exact Hdata).
  cbn [mbind option_bind]. rewrite decide_success.
  destruct (sum_channels_loop stereo_data frame_count Hwrap Hdata
              (resize (Z.to_nat frame_count) zero stereo_data))
    as (mono & Hmono & Hmlen & Hsum); [apply length_resize |].
  rewrite Hmono. cbn [mbind option_bind].
  destruct (resize_two [] pcmf32s) as (a & b & ->).
  cbn [lookup list_lookup mbind option_bind].
  rewrite (set_at_Some [a; b] 0) by (cbn; lia).
  cbn [mbind option_bind insert list_insert lookup list_lookup].
  rewrite set_at_Some by (cbn; lia).
  cbn [mbind option_bind insert list_insert].
  destruct (split_channels_loop stereo_data frame_count Hwrap Hdata
              (resize (Z.to_nat frame_count) zero a)
              (resize (Z.to_nat frame_count) zero b))
    as (left & right & Hsplit & Hllen & Hrlen & Hchan);
    [apply length_resize | apply length_resize |].
  rewrite Hsplit. cbn [mbind option_bind].
  exists mono, left, right. repeat split; auto.
  intros i Hi.
  destruct (Hsum i Hi) as (l & r & Hl & Hr & Hm).
  destruct (Hchan i Hi) as (l' & r' & Hl' & Hr' & Hcl & Hcr).
  exists l, r. rewrite Hl in Hl'. rewrite Hr in Hr'.
  injection Hl' as <-. injection Hr' as <-. auto.
Qed.

Lemma read_audio_data_stereo_witness :
  exists mono left right,
    @read_audio_data stereo_source plain_build [] "stereo.wav" [] [] true =
      Some {| ok := true; out_pcmf32 := mono; out_pcmf32s := [left; right];
              out_stderr := [] |} /\
    length mono = Z.to_nat 2 /\
    length left = Z.to_nat 2 /\
    length right = Z.to_nat 2 /\
    forall i, (i < Z.to_nat 2)%nat ->
      exists l r,
        [quarter; half; half; half] !! (2 * i)%nat = Some l /\
        [quarter; half; half; half] !! (2 * i + 1)%nat = Some r /\
        left !! i = Some l /\ right !! i = Some r /\
        mono !! i = Some (add l r).
Proof.
  apply (@read_audio_data_stereo stereo_source plain_build
           [] "stereo.wav" [] [] 2 [] 2 [quarter; half; half; half] 2).
  - reflexivity.
  - reflexivity.
  - reflexivity.
  - lia.
  - lia.
  - reflexivity.
Defined.

(** The two frames of [stereo_source], decoded with [stereo] set. *)
Example read_audio_data_stereo_source :
  @read_audio_data stereo_source plain_build [] "stereo.wav" [] [] true =
    Some {| ok := true;
            out_pcmf32 := [add quarter half; add half half];
            out_pcmf32s := [[quarter; half]; [half; half]];
            out_stderr := [] |}.
Proof. vm_compute. reflexivity. Qed.

Lemma for_loop_preserves {St} (P : St -> Prop) (body : nat -> St -> option St)
    (n start : nat) (s s' : St) :
  (forall i s s', body i s = Some s' -> P s -> P s') ->
  P s -> for_loop n start body s = Some s' -> P s'.
Proof.
  intros Hbody. revert start s. induction n as [| n IH]; intros start s Hs Hrun.
  - injection Hrun as <-. exact Hs.
  - cbn in Hrun. destruct (body start s) as [s1 |] eqn:Hstep; [| discriminate].
    cbn in Hrun. eapply IH; [| exact Hrun]. eapply Hbody; eauto.
Qed.

Lemma split_channels_length (stereo_data : list f32) (i : nat)
    (s s' : list (list f32)) :
  split_channels stereo_data i s = Some s' -> length s' = length s.
Proof.
  unfold split_channels. intros Hrun.
  destruct (stereo_data !! Z.to_nat (u64 (2 * Z.of_nat i))) as [l |];
    cbn [mbind option_bind] in Hrun; [| discriminate].
  destruct (s !! 0%nat) as [c0 |]; cbn [mbind option_bind] in Hrun; [| discriminate].
  destruct (set_at c0 i l) as [c0' |]; cbn [mbind option_bind] in Hrun; [| discriminate].
  destruct (set_at s 0 c0') as [s1 |] eqn:Hs1;
    cbn [mbind option_bind] in Hrun; [| discriminate].
  destruct (stereo_data !! _) as [r |]; cbn [mbind option_bind] in Hrun; [| discriminate].
  destruct (s1 !! 1%nat) as [c1 |]; cbn [mbind option_bind] in Hrun; [| discriminate].
  destruct (set_at c1 i r) as [c1' |]; cbn [mbind option_bind] in Hrun; [| discriminate].
  apply set_at_length in Hrun, Hs1. congruence.
Qed.











(** * Further properties *)

(** Closed comparisons of integer constants, by evaluation. *)
Ltac closed_bounds :=
  unfold INT64_MIN, INT64_MAX, INT_MIN, INT_MAX;
  repeat split;
  first [ apply Z.leb_le; vm_compute; reflexivity
        | apply Z.ltb_lt; vm_compute; reflexivity ].

(** ** Timestamp mapper *)

Lemma cast_low_range (q : Z) : INT_MIN <= q <= INT_MAX -> cast 32 q = q.
Proof.
  intros Hq. unfold cast. apply wrap_fits; [lia |].
  apply fits_iff. unfold INT_MIN, INT_MAX in Hq. lia.
Qed.

(** Where the product fits [int64_t], the value returned is the clamp of
    the converted index. *)
Lemma timestamp_to_sample_no_wrap (t n_samples rate : Z) :
  INT64_MIN <= t * rate <= INT64_MAX ->
  INT_MIN < n_samples <= INT_MAX ->
  timestamp_to_sample t n_samples rate =
    {| value := Z.max 0 (Z.min (n_samples - 1) (cast 32 (Z.quot (t * rate) 100)));
       overflowed := false |}.
Proof.
  intros Hprod Hn. unfold timestamp_to_sample.
  rewrite (arith_fits 64 (t * rate)), ck_bind_ret
    by (lia || (apply fits_iff; unfold INT64_MIN, INT64_MAX in *; lia)).
  rewrite (arith_fits 64 (Z.quot (t * rate) 100)), ck_bind_ret
    by (lia || quot_rem_bounds).
  rewrite (arith_fits 32 (n_samples - 1)), ck_bind_ret
    by (lia || (apply fits_iff; unfold INT_MIN, INT_MAX in *; lia)).
  reflexivity.
Qed.

(** X1: when [t * rate] fits [int64_t] and the index [t * rate / 100]
    (rounded toward zero) fits [int], [timestamp_to_sample] returns that
    index clamped to [[0, n_samples - 1]], with no overflow on the way. *)
Theorem timestamp_to_sample_exact (t n_samples rate : Z) :
  INT64_MIN <= t * rate <= INT64_MAX ->
  INT_MIN <= Z.quot (t * rate) 100 <= INT_MAX ->
  0 < n_samples <= INT_MAX ->
  timestamp_to_sample t n_samples rate =
    {| value := Z.max 0 (Z.min (n_samples - 1) (Z.quot (t * rate) 100));
       overflowed := false |}.
Proof.
  intros Hprod Hq Hn.
  rewrite timestamp_to_sample_no_wrap by (unfold INT_MIN in *; lia).
  rewrite cast_low_range by exact Hq. reflexivity.
Qed.

Lemma timestamp_to_sample_exact_witness :
  timestamp_to_sample 250 100000 16000 =
    {| value := Z.max 0 (Z.min (100000 - 1) (Z.quot (250 * 16000) 100));
       overflowed := false |}.
Proof.
  apply (timestamp_to_sample_exact 250 100000 16000);
    closed_bounds.
Defined.

(** X2: for a non-negative rate, and as long as the products fit
    [int64_t] and the indices fit [int], a later timestamp never maps to
    an earlier sample. *)
Theorem timestamp_to_sample_monotone (t1 t2 n_samples rate : Z) :
  0 <= rate -> t1 <= t2 ->
  INT64_MIN <= t1 * rate -> t2 * rate <= INT64_MAX ->
  INT_MIN <= Z.quot (t1 * rate) 100 -> Z.quot (t2 * rate) 100 <= INT_MAX ->
  0 < n_samples <= INT_MAX ->
  value (timestamp_to_sample t1 n_samples rate)
  <= value (timestamp_to_sample t2 n_samples rate).
Proof.
  intros Hrate Ht Hlo Hhi Hqlo Hqhi Hn.
  assert (Hprod : t1 * rate <= t2 * rate) by nia.
  assert (Hquot : Z.quot (t1 * rate) 100 <= Z.quot (t2 * rate) 100)
    by (apply Z.quot_le_mono; lia).
  rewrite !timestamp_to_sample_no_wrap by (unfold INT_MIN in *; lia).
  rewrite !cast_low_range by lia. cbn [value]. lia.
Qed.

Lemma timestamp_to_sample_monotone_witness :
  value (timestamp_to_sample 100 100000 16000)
  <= value (timestamp_to_sample 250 100000 16000).
Proof.
  apply (timestamp_to_sample_monotone 100 250 100000 16000);
    closed_bounds.
Defined.

(** X3: the conversion to [int] comes before the clamp. An index in
    [[2 ^ 31, 2 ^ 32)] becomes negative and the sample returned is 0, not
    the last one. *)
Theorem timestamp_to_sample_index_beyond_int (t n_samples rate : Z) :
  INT64_MIN <= t * rate <= INT64_MAX ->
  2 ^ 31 <= Z.quot (t * rate) 100 < 2 ^ 32 ->
  0 < n_samples <= INT_MAX ->
  value (timestamp_to_sample t n_samples rate) = 0.
Proof.
  intros Hprod Hq Hn.
  rewrite timestamp_to_sample_no_wrap by (unfold INT_MIN in *; lia).
  cbn [value]. unfold cast, wrap.
  set (q := Z.quot (t * rate) 100) in *.
  replace (q + 2 ^ (32 - 1)) with ((q - 2 ^ 31) + 1 * 2 ^ 32) by (cbn; lia).
  rewrite Z.mod_add by lia. rewrite Z.mod_small by (cbn in *; lia).
  cbn in *. lia.
Qed.

Lemma timestamp_to_sample_index_beyond_int_witness :
  value (timestamp_to_sample 13500000 2147483647 16000) = 0.
Proof.
  apply (timestamp_to_sample_index_beyond_int 13500000 2147483647 16000);
    closed_bounds.
Defined.

(** The fields of a non-negative timestamp, in centiseconds. *)
Lemma to_timestamp_nonneg (t : Z) (comma : bool) :
  0 <= t -> t * 10 <= INT64_MAX ->
  to_timestamp t comma =
    {| value := format_timestamp (t / 360000) (t / 6000 mod 60) (t / 100 mod 60)
                  comma (t mod 100 * 10);
       overflowed := false |}.
Proof.
  intros Hpos Hmax. unfold to_timestamp.
  change (1000 * 60 * 60) with 3600000. change (1000 * 60) with 60000.
  set (m := t * 10) in *.
  assert (Hm : 0 <= m) by (subst m; lia).
  assert (Hhr : Z.quot m 3600000 = t / 360000)
    by (subst m; Z.to_euclidean_division_equations; lia).
  rewrite (arith_fits 64 m), ck_bind_ret by (lia || quot_rem_bounds).
  rewrite (arith_fits 64 (Z.quot m 3600000)), ck_bind_ret by (lia || quot_rem_bounds).
  rewrite (arith_fits 64 (Z.quot m 3600000 * 3600000)), ck_bind_ret
    by (lia || quot_rem_bounds).
  set (m1 := m - Z.quot m 3600000 * 3600000).
  assert (Hm1 : 0 <= m1 < 3600000 /\ Z.quot m1 60000 = t / 6000 mod 60)
    by (subst m1 m; Z.to_euclidean_division_equations; lia).
  rewrite (arith_fits 64 m1), ck_bind_ret
    by (lia || (apply fits_iff; cbn; lia)).
  rewrite (arith_fits 64 (Z.quot m1 60000)), ck_bind_ret
    by (lia || (apply fits_iff; cbn; Z.to_euclidean_division_equations; lia)).
  rewrite (arith_fits 64 (Z.quot m1 60000 * 60000)), ck_bind_ret
    by (lia || (apply fits_iff; cbn; Z.to_euclidean_division_equations; lia)).
  set (m2 := m1 - Z.quot m1 60000 * 60000).
  assert (Hm2 : 0 <= m2 < 60000 /\ Z.quot m2 1000 = t / 100 mod 60 /\
                m2 - Z.quot m2 1000 * 1000 = t mod 100 * 10)
    by (subst m2 m1 m; Z.to_euclidean_division_equations; lia).
  rewrite (arith_fits 64 m2), ck_bind_ret
    by (lia || (apply fits_iff; cbn; lia)).
  rewrite (arith_fits 64 (Z.quot m2 1000)), ck_bind_ret
    by (lia || (apply fits_iff; cbn; Z.to_euclidean_division_equations; lia)).
  rewrite (arith_fits 64 (Z.quot m2 1000 * 1000)), ck_bind_ret
    by (lia || (apply fits_iff; cbn; Z.to_euclidean_division_equations; lia)).
  rewrite (arith_fits 64 (m2 - Z.quot m2 1000 * 1000)), ck_bind_ret
    by (lia || (apply fits_iff; cbn; Z.to_euclidean_division_equations; lia)).
  destruct Hm1 as [_ ->]. destruct Hm2 as (_ & -> & ->). rewrite Hhr.
  reflexivity.
Qed.

Lemma fmt_0d_two (v : Z) : 0 <= v < 100 -> fmt_0d 2 (cast 32 v) = two_digits v.
Proof.
  intros Hv. rewrite cast_low_range by (unfold INT_MIN, INT_MAX; lia).
  assert (Hall : forallb (fun n => String.eqb (fmt_0d 2 (Z.of_nat n))
                                     (two_digits (Z.of_nat n))) (seq 0 100) = true)
    by (vm_compute; reflexivity).
  rewrite forallb_forall in Hall. specialize (Hall (Z.to_nat v)).
  rewrite Z2Nat.id in Hall by lia.
  apply String.eqb_eq, Hall, in_seq. lia.
Qed.

Lemma fmt_0d_three (v : Z) : 0 <= v < 1000 -> fmt_0d 3 (cast 32 v) = three_digits v.
Proof.
  intros Hv. rewrite cast_low_range by (unfold INT_MIN, INT_MAX; lia).
  assert (Hall : forallb (fun n => String.eqb (fmt_0d 3 (Z.of_nat n))
                                     (three_digits (Z.of_nat n))) (seq 0 1000) = true)
    by (vm_compute; reflexivity).
  rewrite forallb_forall in Hall. specialize (Hall (Z.to_nat v)).
  rewrite Z2Nat.id in Hall by lia.
  apply String.eqb_eq, Hall, in_seq. lia.
Qed.

(** X4: below one hundred hours a timestamp [t] (in centiseconds) prints
    as the twelve characters [HH:MM:SS.mmm], or [HH:MM:SS,mmm] with
    [comma], with the hours [t / 360000], the minutes [t / 6000 mod 60],
    the seconds [t / 100 mod 60] and the milliseconds [(t mod 100) * 10];
    nothing overflows and nothing is cut by the 32-character buffer. *)
Theorem to_timestamp_fixed_width (t : Z) (comma : bool) :
  0 <= t < 36000000 ->
  to_timestamp t comma =
    {| value :=
         String.append (two_digits (t / 360000))
           (String ":"
             (String.append (two_digits (t / 6000 mod 60))
               (String ":"
                 (String.append (two_digits (t / 100 mod 60))
                   (String (if comma then "," else ".")%char
                      (three_digits (t mod 100 * 10)))))));
       overflowed := false |} /\
  String.length (value (to_timestamp t comma)) = 12%nat.
Proof.
  intros Ht.
  assert (Hrun : to_timestamp t comma =
    {| value :=
         String.append (two_digits (t / 360000))
           (String ":"
             (String.append (two_digits (t / 6000 mod 60))
               (String ":"
                 (String.append (two_digits (t / 100 mod 60))
                   (String (if comma then "," else ".")%char
                      (three_digits (t mod 100 * 10)))))));
       overflowed := false |}).
  { rewrite to_timestamp_nonneg by (unfold INT64_MAX; lia).
    unfold format_timestamp.
    rewrite !fmt_0d_two, fmt_0d_three
      by (Z.to_euclidean_division_equations; lia).
    destruct comma; reflexivity. }
  split; [exact Hrun |]. rewrite Hrun. reflexivity.
Qed.

Lemma to_timestamp_fixed_width_witness :
  to_timestamp 8130123 true =
    {| value := "22:35:01,230"%string; overflowed := false |} /\
  String.length (value (to_timestamp 8130123 true)) = 12%nat.
Proof.
  apply (to_timestamp_fixed_width 8130123 true). closed_bounds.
Defined.

(** ** Resampler lifecycle and conversion *)

(** X5: [init_resamplers] returns [true] exactly when it leaves the
    resamplers marked as initialised. *)
Theorem init_resamplers_flag `{Miniaudio} `{Build} (g : globals) :
  g_resamplers_initialized (init_resamplers g).2 = (init_resamplers g).1.
Proof.
  unfold init_resamplers.
  destruct (g_resamplers_initialized g) eqn:Hg; [exact Hg |].
  destruct (ma_linear_resampler_init _ (g_resampler_16k_to_48k g)) as [r_up up].
  destruct (decide (r_up <> MA_SUCCESS)); [reflexivity |].
  destruct (ma_linear_resampler_init _ (g_resampler_48k_to_16k g)) as [r_down down].
  destruct (decide (r_down <> MA_SUCCESS)); reflexivity.
Qed.

Lemma init_resamplers_failed `{Miniaudio} `{Build} (g : globals) :
  (init_resamplers g).1 = false ->
  g_resamplers_initialized (init_resamplers g).2 = false.
Proof.
  unfold init_resamplers.
  destruct (g_resamplers_initialized g) eqn:Hg; [discriminate |].
  destruct (ma_linear_resampler_init _ (g_resampler_16k_to_48k g)) as [r_up up].
  destruct (decide (r_up <> MA_SUCCESS)); [reflexivity |].
  destruct (ma_linear_resampler_init _ (g_resampler_48k_to_16k g)) as [r_down down].
  destruct (decide (r_down <> MA_SUCCESS)); [reflexivity | discriminate].
Qed.

(** X6: after a failed [init_resamplers] nothing is left to release and
    nothing converts: [uninit_resamplers] changes nothing and
    [resample_audio] hands every input back. And when the first resampler
    had been set up before the second one failed, the failed call has
    released it: the state holds what [ma_linear_resampler_uninit] made of
    it. *)
Theorem init_resamplers_failure_is_clean `{Miniaudio} `{Build} (g : globals) :
  (init_resamplers g).1 = false ->
  let g' := (init_resamplers g).2 in
  uninit_resamplers g' = g' /\
  (forall (resampler : ma_linear_resampler) (input : list f32),
      resample_audio (g_resamplers_initialized g') resampler input
      = Some (resampler, input)) /\
  (forall up : ma_linear_resampler,
      ma_linear_resampler_init
        (set_lpfOrder
           (ma_linear_resampler_config_init ma_format_f32 1
              WHISPER_SAMPLE_RATE RNNOISE_SAMPLE_RATE) 4)
        (g_resampler_16k_to_48k g) = (MA_SUCCESS, up) ->
      g_resampler_16k_to_48k g' = ma_linear_resampler_uninit up).
Proof.
  intros Hfail g'. pose proof (init_resamplers_failed g Hfail) as Hflag.
  fold g' in Hflag. split; [| split].
  - unfold uninit_resamplers. rewrite Hflag. reflexivity.
  - intros resampler input. rewrite Hflag. unfold resample_audio.
    rewrite orb_true_r. reflexivity.
  - intros up Hup. subst g'. unfold init_resamplers in *.
    destruct (g_resamplers_initialized g); [discriminate |].
    rewrite Hup in *. rewrite decide_success in *.
    destruct (ma_linear_resampler_init _ (g_resampler_48k_to_16k g)) as [r_down down].
    destruct (decide (r_down <> MA_SUCCESS)); [reflexivity | discriminate].
Qed.

Lemma init_resamplers_failure_is_clean_witness :
  @init_resamplers no_downsampler plain_build cold
    = (false, scripted_globals no_downsampler false false) /\
  let g' := (@init_resamplers no_downsampler plain_build cold).2 in
  uninit_resamplers g' = g' /\
  (forall (resampler : @ma_linear_resampler no_downsampler) (input : list f32),
      resample_audio (g_resamplers_initialized g') resampler input
      = Some (resampler, input)) /\
  (forall up : @ma_linear_resampler no_downsampler,
      @ma_linear_resampler_init no_downsampler
        (set_lpfOrder
           (ma_linear_resampler_config_init ma_format_f32 1
              (@WHISPER_SAMPLE_RATE plain_build) RNNOISE_SAMPLE_RATE) 4)
        (g_resampler_16k_to_48k cold) = (MA_SUCCESS, up) ->
      g_resampler_16k_to_48k g' = ma_linear_resampler_uninit up).
Proof.
  split; [reflexivity |].
  apply (@init_resamplers_failure_is_clean no_downsampler plain_build cold).
  reflexivity.
Defined.

(** X7: [uninit_resamplers] leaves the resamplers marked as not
    initialised, and a second teardown changes nothing: no resampler is
    released twice. *)
Theorem uninit_resamplers_idempotent `{Miniaudio} (g : globals) :
  g_resamplers_initialized (uninit_resamplers g) = false /\
  uninit_resamplers (uninit_resamplers g) = uninit_resamplers g.
Proof.
  unfold uninit_resamplers.
  destruct (g_resamplers_initialized g) eqn:Hg; cbn; rewrite ?Hg; auto.
Qed.

(** X8: on a non-empty input and initialised resamplers, when miniaudio
    stays inside the output buffer, [resample_audio] returns exactly as
    many samples as miniaudio reports it produced; when at least that many
    were stored, they are the samples returned. *)
Theorem resample_audio_length `{Miniaudio}
    (resampler resampler' : ma_linear_resampler) (input stored : list f32)
    (produced : Z) :
  input <> [] ->
  let fresh := ma_linear_resampler_reset resampler in
  let frames := u64 (Z.of_nat (length input)) in
  let room := ma_linear_resampler_get_expected_output_frame_count fresh frames in
  ma_linear_resampler_process_pcm_frames fresh input frames room
    = (resampler', stored, produced) ->
  (length stored <= Z.to_nat room)%nat ->
  exists output,
    resample_audio true resampler input = Some (resampler', output) /\
    length output = Z.to_nat produced /\
    ((Z.to_nat produced <= length stored)%nat ->
     output = take (Z.to_nat produced) stored).
Proof.
  intros Hne fresh frames room Hrun Hfit. unfold resample_audio.
  rewrite bool_decide_eq_false_2 by exact Hne. cbn [orb negb].
  fold fresh. fold frames. fold room. rewrite Hrun.
  unfold write_at. rewrite decide_True by (rewrite length_replicate; exact Hfit).
  cbn [mbind option_bind]. eexists. split; [reflexivity |]. split.
  - apply length_resize.
  - intros Hle. rewrite resize_le.
    + apply take_app_le. exact Hle.
    + rewrite length_app. lia.
Qed.

Lemma resample_audio_length_witness :
  exists output,
    @resample_audio mono_source true tt [quarter; half] = Some (tt, output) /\
    length output = Z.to_nat 2 /\
    ((Z.to_nat 2 <= length [quarter; half])%nat ->
     output = take (Z.to_nat 2) [quarter; half]).
Proof.
  apply (@resample_audio_length mono_source tt tt [quarter; half] [quarter; half] 2).
  - discriminate.
  - reflexivity.
  - apply Nat.leb_le. vm_compute. reflexivity.
Defined.

(** ** Frame denoiser *)

Lemma globals_eta `{Miniaudio} (g : globals) :
  {| g_resampler_16k_to_48k := g_resampler_16k_to_48k g;
     g_resampler_48k_to_16k := g_resampler_48k_to_16k g;
     g_resamplers_initialized := g_resamplers_initialized g |} = g.
Proof. destruct g. reflexivity. Qed.

Lemma resample_audio_off `{Miniaudio} (resampler : ma_linear_resampler)
    (input : list f32) :
  resample_audio false resampler input = Some (resampler, input).
Proof. unfold resample_audio. rewrite orb_true_r. reflexivity. Qed.

(** X9: when the upsampled buffer holds fewer than 480 samples, RNNoise
    is not called at all: its state comes back as it was and the caller's
    buffer becomes the upsampled buffer downsampled again. *)
Theorem denoise_audio_short `{Miniaudio} `{RNNoise} (g : globals)
    (st : DenoiseState) (pcmf32 : list f32)
    (up : ma_linear_resampler) (buf : list f32) :
  pcmf32 <> [] ->
  resample_audio (g_resamplers_initialized g) (g_resampler_16k_to_48k g) pcmf32
    = Some (up, buf) ->
  (length buf < RNNOISE_FRAME_SIZE)%nat ->
  denoise_audio g st pcmf32 =
    ('(down, pcmf32') ← resample_audio (g_resamplers_initialized g)
                          (g_resampler_48k_to_16k g) buf;
     Some ({| g_resampler_16k_to_48k := up;
              g_resampler_48k_to_16k := down;
              g_resamplers_initialized := g_resamplers_initialized g |},
           st, pcmf32', [])).
Proof.
  intros Hne Hup Hshort. unfold denoise_audio.
  rewrite bool_decide_eq_false_2 by exact Hne.
  rewrite Hup. cbn [mbind option_bind].
  rewrite Nat.div_small by exact Hshort. cbn [denoise_frames fs_pcmf32_48k].
  rewrite decide_False by lia. reflexivity.
Qed.

Lemma denoise_audio_short_witness :
  @denoise_audio mono_source halving_rnnoise ready 0%nat (replicate 479 quarter) =
    ('(down, pcmf32') ← @resample_audio mono_source true
                          (g_resampler_48k_to_16k ready) (replicate 479 quarter);
     Some ({| g_resampler_16k_to_48k := g_resampler_16k_to_48k ready;
              g_resampler_48k_to_16k := down;
              g_resamplers_initialized := true |},
           0%nat, pcmf32', [])).
Proof.
  apply (@denoise_audio_short mono_source halving_rnnoise ready 0%nat
           (replicate 479 quarter) (g_resampler_16k_to_48k ready)
           (replicate 479 quarter)).
  - discriminate.
  - vm_compute. reflexivity.
  - apply Nat.ltb_lt. vm_compute. reflexivity.
Defined.

(** X10: while the resamplers are not initialised [denoise_audio] still
    runs the frame loop, on the caller's samples as they are: the file-level
    variables are untouched, the buffer keeps its length, and every full
    block of 480 samples of the input goes through RNNoise. *)
Theorem denoise_audio_uninitialized `{Miniaudio} `{RNNoise} (g : globals)
    (st : DenoiseState) (pcmf32 : list f32) :
  stores_full_frames ->
  g_resamplers_initialized g = false ->
  pcmf32 <> [] ->
  let r := frames_spec (length pcmf32 / RNNOISE_FRAME_SIZE)%nat st pcmf32 in
  denoise_audio g st pcmf32 = Some (g, r.1.1, r.1.2, r.2) /\
  length r.1.2 = length pcmf32.
Proof.
  intros Hrn Hflag Hne r.
  set (q := (length pcmf32 / RNNOISE_FRAME_SIZE)%nat) in *.
  assert (Hq : (q * RNNOISE_FRAME_SIZE <= length pcmf32)%nat).
  { unfold q, RNNOISE_FRAME_SIZE.
    pose proof (Nat.Div0.mul_div_le (length pcmf32) 480). lia. }
  destruct (frames_spec_tail Hrn q st pcmf32 Hq) as [Hlen _].
  split; [| exact Hlen].
  unfold denoise_audio. rewrite bool_decide_eq_false_2 by exact Hne.
  rewrite Hflag, resample_audio_off.
  cbn [mbind option_bind]. fold q.
  destruct (denoise_frames_run Hrn q (S q) 0
              {| fs_st := st; fs_frame := replicate RNNOISE_FRAME_SIZE zero;
                 fs_pcmf32_48k := pcmf32; fs_handed := [] |})
    as (s' & Hrun & Hst & Hpcm & Hhanded).
  - apply length_replicate.
  - lia.
  - cbn [fs_pcmf32_48k]. rewrite Nat.sub_0_r. reflexivity.
  - lia.
  - rewrite Hrun. cbn [mbind option_bind].
    cbn [fs_pcmf32_48k fs_st fs_handed] in Hst, Hpcm, Hhanded.
    rewrite drop_0 in *. rewrite take_0, app_nil_l in Hpcm.
    fold r in Hst, Hpcm, Hhanded.
    rewrite resample_audio_off. cbn [mbind option_bind].
    rewrite <- Hflag at 1. rewrite globals_eta, Hst, Hpcm, Hhanded. reflexivity.
Qed.

Lemma denoise_audio_uninitialized_witness :
  let g := scripted_globals mono_source tt false in
  let pcmf32 := replicate 481 quarter in
  let r := @frames_spec halving_rnnoise (length pcmf32 / RNNOISE_FRAME_SIZE)%nat
             0%nat pcmf32 in
  @denoise_audio mono_source halving_rnnoise g 0%nat pcmf32
    = Some (g, r.1.1, r.1.2, r.2) /\
  length r.1.2 = length pcmf32.
Proof.
  intros g pcmf32 r.
  apply (@denoise_audio_uninitialized mono_source halving_rnnoise g 0%nat pcmf32).
  - intros st frame Hlen. cbn. rewrite length_fmap. exact Hlen.
  - reflexivity.
  - discriminate.
Defined.

Lemma full_frames_shape (q : nat) (buf : list f32) :
  (q * RNNOISE_FRAME_SIZE <= length buf)%nat ->
  length (full_frames q buf) = q /\
  Forall (fun frame => length frame = RNNOISE_FRAME_SIZE) (full_frames q buf).
Proof.
  revert buf. unfold RNNOISE_FRAME_SIZE.
  induction q as [| q IH]; intros buf Hlen; cbn [full_frames].
  - split; [reflexivity | constructor].
  - destruct (IH (drop RNNOISE_FRAME_SIZE buf)) as [Hcount Hsize].
    { unfold RNNOISE_FRAME_SIZE. rewrite length_drop. lia. }
    split; [cbn [length]; f_equal; exact Hcount |].
    constructor; [| exact Hsize].
    unfold RNNOISE_FRAME_SIZE. rewrite length_take. lia.
Qed.

(** The frame loop as [denoise_audio] starts it. *)
Lemma denoise_frames_from_start `{RNNoise} (st : DenoiseState) (buf : list f32) :
  stores_full_frames ->
  let q := (length buf / RNNOISE_FRAME_SIZE)%nat in
  let r := frames_spec q st buf in
  exists s,
    denoise_frames (S q) 0 (loop_start st buf) = Some s /\
    fs_st s = r.1.1 /\ fs_pcmf32_48k s = r.1.2 /\ fs_handed s = r.2.
Proof.
  intros Hrn q r.
  destruct (denoise_frames_run Hrn q (S q) 0 (loop_start st buf))
    as (s & Hrun & Hst & Hpcm & Hhanded).
  - apply length_replicate.
  - lia.
  - cbn [loop_start fs_pcmf32_48k]. rewrite Nat.sub_0_r. reflexivity.
  - lia.
  - cbn [loop_start fs_pcmf32_48k fs_st fs_handed] in Hst, Hpcm, Hhanded.
    rewrite drop_0 in *. rewrite take_0, app_nil_l in Hpcm.
    exists s. auto.
Qed.

(** X11: the frame loop calls RNNoise once for every full block of 480
    samples and never with anything but 480 samples; it ends normally and
    the buffer keeps its length. *)
Theorem denoise_frames_hands_full_frames `{RNNoise}
    (st : DenoiseState) (buf : list f32) :
  stores_full_frames ->
  exists s,
    denoise_frames (S (length buf / RNNOISE_FRAME_SIZE)) 0 (loop_start st buf)
      = Some s /\
    length (fs_handed s) = (length buf / RNNOISE_FRAME_SIZE)%nat /\
    Forall (fun frame => length frame = RNNOISE_FRAME_SIZE) (fs_handed s) /\
    length (fs_pcmf32_48k s) = length buf.
Proof.
  intros Hrn.
  destruct (denoise_frames_from_start st buf Hrn) as (s & Hrun & _ & Hpcm & Hhanded).
  set (q := (length buf / RNNOISE_FRAME_SIZE)%nat) in *.
  assert (Hq : (q * RNNOISE_FRAME_SIZE <= length buf)%nat).
  { unfold q, RNNOISE_FRAME_SIZE.
    pose proof (Nat.Div0.mul_div_le (length buf) 480). lia. }
  destruct (full_frames_shape q buf Hq) as [Hcount Hsize].
  destruct (frames_spec_tail Hrn q st buf Hq) as [Hlen _].
  exists s. rewrite Hhanded, Hpcm, frames_spec_handed by exact Hrn.
  repeat split; [exact Hrun | | | exact Hlen].
  - rewrite length_fmap. exact Hcount.
  - apply Forall_fmap. eapply Forall_impl; [exact Hsize |].
    intros frame Hframe. cbn. rewrite length_fmap. exact Hframe.
Qed.

Lemma denoise_frames_hands_full_frames_witness :
  exists s,
    @denoise_frames halving_rnnoise (S (length (replicate 961 quarter) / RNNOISE_FRAME_SIZE))
      0 (@loop_start halving_rnnoise 0%nat (replicate 961 quarter)) = Some s /\
    length (fs_handed s) = (length (replicate 961 quarter) / RNNOISE_FRAME_SIZE)%nat /\
    Forall (fun frame => length frame = RNNOISE_FRAME_SIZE) (fs_handed s) /\
    length (fs_pcmf32_48k s) = length (replicate 961 quarter).
Proof.
  apply (@denoise_frames_hands_full_frames halving_rnnoise 0%nat (replicate 961 quarter)).
  intros st frame Hlen. cbn. rewrite length_fmap. exact Hlen.
Defined.

Lemma frames_spec_app `{RNNoise} (qa qb : nat) (st : DenoiseState) (a b : list f32) :
  length a = (qa * RNNOISE_FRAME_SIZE)%nat ->
  let ra := frames_spec qa st a in
  let rb := frames_spec qb ra.1.1 b in
  frames_spec (qa + qb) st (a ++ b) = (rb.1.1, ra.1.2 ++ rb.1.2, ra.2 ++ rb.2).
Proof.
  revert st a. unfold RNNOISE_FRAME_SIZE.
  induction qa as [| qa IH]; intros st a Hlen.
  - destruct a; [| discriminate]. cbn.
    destruct (frames_spec qb st b) as [[st' rest] handed]. reflexivity.
  - cbn [Nat.add frames_spec]. unfold RNNOISE_FRAME_SIZE.
    rewrite take_app_le, drop_app_le by lia.
    destruct (rnnoise_process_frame st _) as [st1 out].
    specialize (IH st1 (drop 480 a)). rewrite length_drop in IH.
    specialize (IH ltac:(lia)). cbn zeta in IH. rewrite IH.
    destruct (frames_spec qa st1 (drop 480 a)) as [[st2 rest] handed].
    cbn [fst snd].
    destruct (frames_spec qb st2 b) as [[st3 rest'] handed'].
    cbn [fst snd]. rewrite <- app_assoc. reflexivity.
Qed.

(** X12: the frame loop over a buffer [a ++ b], where [a] is a whole
    number of frames, does what the loop over [a] followed by the loop
    over [b] does, the second run starting from the RNNoise state the first
    one left: same samples, same frames handed over, same final state. *)
Theorem denoise_frames_app `{RNNoise} (st : DenoiseState) (a b : list f32) (qa : nat) :
  stores_full_frames ->
  length a = (qa * RNNOISE_FRAME_SIZE)%nat ->
  exists sa sb s,
    denoise_frames (S (length a / RNNOISE_FRAME_SIZE)) 0 (loop_start st a) = Some sa /\
    denoise_frames (S (length b / RNNOISE_FRAME_SIZE)) 0 (loop_start (fs_st sa) b)
      = Some sb /\
    denoise_frames (S (length (a ++ b) / RNNOISE_FRAME_SIZE)) 0 (loop_start st (a ++ b))
      = Some s /\
    fs_pcmf32_48k s = fs_pcmf32_48k sa ++ fs_pcmf32_48k sb /\
    fs_handed s = fs_handed sa ++ fs_handed sb /\
    fs_st s = fs_st sb.
Proof.
  intros Hrn Hlen.
  destruct (denoise_frames_from_start st a Hrn) as (sa & Hra & Hsta & Hpa & Hha).
  destruct (denoise_frames_from_start (fs_st sa) b Hrn) as (sb & Hrb & Hstb & Hpb & Hhb).
  destruct (denoise_frames_from_start st (a ++ b) Hrn) as (s & Hr & Hst & Hp & Hh).
  exists sa, sb, s. repeat split; [exact Hra | exact Hrb | exact Hr | | |].
  all: assert (Hqa : (length a / RNNOISE_FRAME_SIZE)%nat = qa)
         by (rewrite Hlen; apply Nat.div_mul; discriminate).
  all: assert (Hq : (length (a ++ b) / RNNOISE_FRAME_SIZE)%nat
                    = (qa + length b / RNNOISE_FRAME_SIZE)%nat)
         by (rewrite length_app, Hlen, Nat.add_comm;
             rewrite Nat.div_add by discriminate; lia).
  all: rewrite Hq in *; rewrite Hqa in *.
  all: pose proof (frames_spec_app qa (length b / RNNOISE_FRAME_SIZE)%nat st a b Hlen)
         as Happ; cbn zeta in Happ.
  all: rewrite Happ in *; cbn [fst snd] in *.
  all: rewrite <- Hsta in *; congruence.
Qed.

Lemma denoise_frames_app_witness :
  let a := replicate 480 quarter in
  let b := replicate 481 half in
  exists sa sb s,
    @denoise_frames halving_rnnoise (S (length a / RNNOISE_FRAME_SIZE)) 0
      (@loop_start halving_rnnoise 0%nat a) = Some sa /\
    denoise_frames (S (length b / RNNOISE_FRAME_SIZE)) 0 (loop_start (fs_st sa) b)
      = Some sb /\
    denoise_frames (S (length (a ++ b) / RNNOISE_FRAME_SIZE)) 0
      (@loop_start halving_rnnoise 0%nat (a ++ b)) = Some s /\
    fs_pcmf32_48k s = fs_pcmf32_48k sa ++ fs_pcmf32_48k sb /\
    fs_handed s = fs_handed sa ++ fs_handed sb /\
    fs_st s = fs_st sb.
Proof.
  intros a b.
  apply (@denoise_frames_app halving_rnnoise 0%nat a b 1).
  - intros st frame Hlen. cbn. rewrite length_fmap. exact Hlen.
  - reflexivity.
Defined.

(** ** Decode adapter *)

(** X13: the [fread] loop gathers the blocks that come before the first
    empty one, in order, after what was gathered already; nothing that
    follows an empty block is read. *)
Theorem read_stdin_until_eof :
  (forall stdin audio_data,
      read_stdin stdin audio_data = audio_data ++ concat (before_eof stdin)) /\
  (forall before after audio_data,
      read_stdin (before ++ [] :: after) audio_data = read_stdin before audio_data).
Proof.
  split.
  - induction stdin as [| buf rest IH]; intros audio_data; cbn.
    + rewrite app_nil_r. reflexivity.
    + destruct (decide (length buf = 0%nat)); cbn.
      * rewrite app_nil_r. reflexivity.
      * rewrite IH, <- app_assoc. reflexivity.
  - induction before as [| buf rest IH]; intros after audio_data; cbn.
    + reflexivity.
    + destruct (decide (length buf = 0%nat)); [reflexivity | apply IH].
Qed.

Lemma open_decoder_failure_log `{Miniaudio} `{Build}
    (stdin : list (list Byte.byte)) (fname : string)
    (config : ma_decoder_config) (log : list string) :
  open_decoder stdin fname config = (None, log) -> length log = 1%nat.
Proof.
  unfold open_decoder.
  destruct (String.eqb fname "-").
  - destruct (ma_decoder_init_memory _ config) as [r d].
    destruct (decide (r <> MA_SUCCESS)); intros [= <-]; reflexivity.
  - destruct (ma_decoder_init_file (c_str fname) config) as [r d].
    destruct (decide (r <> MA_SUCCESS)); [| discriminate].
    destruct WHISPER_FFMPEG.
    + destruct (ffmpeg_decode_audio fname []) as [[|] data].
      * intros [= <-]. reflexivity.
      * destruct (ma_decoder_init_memory data config) as [r' d'].
        destruct (decide (r' <> MA_SUCCESS)); [| discriminate].
        intros [= <-]. reflexivity.
    + destruct (ma_decoder_init_memory _ config) as [r' d'].
      destruct (decide (r' <> MA_SUCCESS)); [| discriminate].
      intros [= <-]. reflexivity.
Qed.

(** X14: when no decoder can be opened (on the standard input, on the
    file, or on the fallback buffer), [read_audio_data] returns [false],
    hands both vectors back as it received them and prints exactly one
    line. *)
Theorem read_audio_data_open_failure `{Miniaudio} `{Build}
    (stdin : list (list Byte.byte)) (fname : string)
    (pcmf32 : list f32) (pcmf32s : list (list f32)) (stereo : bool)
    (log : list string) :
  open_decoder stdin fname
    (ma_decoder_config_init ma_format_f32 (if stereo then 2 else 1)
       WHISPER_SAMPLE_RATE) = (None, log) ->
  read_audio_data stdin fname pcmf32 pcmf32s stereo =
    Some {| ok := false; out_pcmf32 := pcmf32; out_pcmf32s := pcmf32s;
            out_stderr := log |} /\
  length log = 1%nat.
Proof.
  intros Hopen. split.
  - unfold read_audio_data. rewrite Hopen. reflexivity.
  - eapply open_decoder_failure_log. exact Hopen.
Qed.

Lemma read_audio_data_open_failure_witness :
  let log := [message ["error: failed to read audio data as wav ("; "error"; ")"; nl]%string] in
  @read_audio_data no_downsampler plain_build [] "missing.wav" [half] [[quarter]] true =
    Some {| ok := false; out_pcmf32 := [half]; out_pcmf32s := [[quarter]];
            out_stderr := log |} /\
  length log = 1%nat.
Proof.
  intros log.
  apply (@read_audio_data_open_failure no_downsampler plain_build
           [] "missing.wav" [half] [[quarter]] true log).
  reflexivity.
Defined.

Lemma write_at_length {A} (v data out : list A) :
  write_at v data = Some out -> length out = length v.
Proof.
  unfold write_at. destruct (decide (length data <= length v)%nat); [| discriminate].
  intros [= <-]. rewrite length_app, length_drop. lia.
Qed.

Lemma sum_channels_length (stereo_data : list f32) (i : nat) (pcm pcm' : list f32) :
  sum_channels stereo_data i pcm = Some pcm' -> length pcm' = length pcm.
Proof.
  unfold sum_channels. intros Hrun.
  destruct (stereo_data !! Z.to_nat (u64 (2 * Z.of_nat i))) as [l |];
    cbn [mbind option_bind] in Hrun; [| discriminate].
  destruct (stereo_data !! _) as [r |]; cbn [mbind option_bind] in Hrun; [| discriminate].
  eapply set_at_length. exact Hrun.
Qed.

Lemma set_at_Some_inv {A} (v v' : list A) (i : nat) (x : A) :
  set_at v i x = Some v' -> v' = <[i := x]> v.
Proof.
  unfold set_at. destruct (decide (i < length v)%nat); [| discriminate].
  intros [= <-]. reflexivity.
Qed.

Lemma split_channels_sizes (n : nat) (stereo_data : list f32) (i : nat)
    (s s' : list (list f32)) :
  split_channels stereo_data i s = Some s' ->
  Forall (fun c => length c = n) s -> Forall (fun c => length c = n) s'.
Proof.
  unfold split_channels. intros Hrun Hs.
  destruct (stereo_data !! Z.to_nat (u64 (2 * Z.of_nat i))) as [l |];
    cbn [mbind option_bind] in Hrun; [| discriminate].
  destruct (s !! 0%nat) as [c0 |] eqn:Hc0; cbn [mbind option_bind] in Hrun; [| discriminate].
  destruct (set_at c0 i l) as [c0' |] eqn:Hc0';
    cbn [mbind option_bind] in Hrun; [| discriminate].
  destruct (set_at s 0 c0') as [s1 |] eqn:Hs1;
    cbn [mbind option_bind] in Hrun; [| discriminate].
  destruct (stereo_data !! _) as [r |]; cbn [mbind option_bind] in Hrun; [| discriminate].
  destruct (s1 !! 1%nat) as [c1 |] eqn:Hc1; cbn [mbind option_bind] in Hrun; [| discriminate].
  destruct (set_at c1 i r) as [c1' |] eqn:Hc1';
    cbn [mbind option_bind] in Hrun; [| discriminate].
  apply set_at_Some_inv in Hs1, Hrun. subst s1 s'.
  assert (Hs1 : Forall (fun c => length c = n) (<[0%nat := c0']> s)).
  { apply Forall_insert; [exact Hs |].
    apply set_at_length in Hc0'. rewrite Hc0'.
    eapply (proj1 (Forall_lookup _ _) Hs). exact Hc0. }
  apply Forall_insert; [exact Hs1 |].
  apply set_at_length in Hc1'. rewrite Hc1'.
  eapply (proj1 (Forall_lookup _ _) Hs1). exact Hc1.
Qed.

(** X15: whenever [read_audio_data] returns [true], a decoder was opened
    and answered the length query with [MA_SUCCESS] and some
    [frame_count]; the mono buffer then holds exactly [frame_count]
    samples. With [stereo] set the channel set holds two channels of
    [frame_count] samples each; without it the channel set is the one
    passed in. *)
Theorem read_audio_data_success_shape `{Miniaudio} `{Build}
    (stdin : list (list Byte.byte)) (fname : string)
    (pcmf32 : list f32) (pcmf32s : list (list f32)) (stereo : bool)
    (res : decoded) :
  read_audio_data stdin fname pcmf32 pcmf32s stereo = Some res ->
  ok res = true ->
  exists decoder log frame_count,
    open_decoder stdin fname
      (ma_decoder_config_init ma_format_f32 (if stereo then 2 else 1)
         WHISPER_SAMPLE_RATE) = (Some decoder, log) /\
    ma_decoder_get_length_in_pcm_frames decoder = (MA_SUCCESS, frame_count) /\
    out_stderr res = log /\
    length (out_pcmf32 res) = Z.to_nat frame_count /\
    if stereo
    then length (out_pcmf32s res) = 2%nat /\
         Forall (fun c => length c = Z.to_nat frame_count) (out_pcmf32s res)
    else out_pcmf32s res = pcmf32s.
Proof.
  intros Hrun Hok. unfold read_audio_data in Hrun.
  destruct (open_decoder _ _ _) as [[decoder |] log] eqn:Hopen.
  2:{ injection Hrun as <-. discriminate. }
  destruct (ma_decoder_get_length_in_pcm_frames decoder) as [r_len frame_count] eqn:Hlen.
  destruct (decide (r_len <> MA_SUCCESS)) as [| Hsucc].
  { injection Hrun as <-. discriminate. }
  assert (r_len = MA_SUCCESS) as ->
    by (destruct (decide (r_len = MA_SUCCESS)); [assumption | contradiction]).
  destruct (ma_decoder_read_pcm_frames decoder frame_count)
    as [[r_read stored] frames_read].
  destruct (write_at _ stored) as [data |] eqn:Hdata;
    cbn [mbind option_bind] in Hrun; [| discriminate].
  apply write_at_length in Hdata. rewrite length_resize in Hdata.
  destruct (decide (r_read <> MA_SUCCESS)).
  { injection Hrun as <-. discriminate. }
  exists decoder, log, frame_count.
  destruct stereo.
  - destruct (for_range _ (sum_channels data) _) as [mono |] eqn:Hmono;
      cbn [mbind option_bind] in Hrun; [| discriminate].
    destruct (resize_two [] pcmf32s) as (a & b & Hab). rewrite Hab in Hrun.
    cbn [lookup list_lookup mbind option_bind] in Hrun.
    rewrite (set_at_Some [a; b] 0) in Hrun by (cbn; lia).
    cbn [mbind option_bind insert list_insert lookup list_lookup] in Hrun.
    rewrite set_at_Some in Hrun by (cbn; lia).
    cbn [mbind option_bind insert list_insert] in Hrun.
    destruct (for_range _ (split_channels data) _) as [chans |] eqn:Hsplit;
      cbn [mbind option_bind] in Hrun; [| discriminate].
    injection Hrun as <-. cbn [out_stderr out_pcmf32 out_pcmf32s].
    repeat split; auto.
    + unfold for_range in Hmono.
      eapply (for_loop_preserves (fun pcm => length pcm = Z.to_nat frame_count))
        in Hmono; [exact Hmono | | apply length_resize].
      intros i pcm pcm' Hstep Hpcm. apply sum_channels_length in Hstep. congruence.
    + unfold for_range in Hsplit.
      eapply (for_loop_preserves (fun s => length s = 2%nat)) in Hsplit; auto.
      intros i s s' Hstep Hs. apply split_channels_length in Hstep. congruence.
    + unfold for_range in Hsplit.
      eapply (for_loop_preserves
                (fun s => Forall (fun c => length c = Z.to_nat frame_count) s))
        in Hsplit; [exact Hsplit | |].
      * intros i s s' Hstep Hs. eapply split_channels_sizes; eauto.
      * repeat constructor; apply length_resize.
  - injection Hrun as <-. cbn [out_stderr out_pcmf32 out_pcmf32s].
    repeat split; auto.
Qed.

Lemma read_audio_data_success_shape_witness :
  exists decoder log frame_count,
    @open_decoder stereo_source plain_build [] "stereo.wav"
      (@ma_decoder_config_init stereo_source ma_format_f32 2
         (@WHISPER_SAMPLE_RATE plain_build))
      = (Some decoder, log) /\
    @ma_decoder_get_length_in_pcm_frames stereo_source decoder
      = (@MA_SUCCESS stereo_source, frame_count) /\
    [] = log /\
    length [add quarter half; add half half] = Z.to_nat frame_count /\
    length [[quarter; half]; [half; half]] = 2%nat /\
    Forall (fun c => length c = Z.to_nat frame_count) [[quarter; half]; [half; half]].
Proof.
  apply (@read_audio_data_success_shape stereo_source plain_build
           [] "stereo.wav" [] [] true
           {| ok := true; out_pcmf32 := [add quarter half; add half half];
              out_pcmf32s := [[quarter; half]; [half; half]]; out_stderr := [] |}).
  - vm_compute. reflexivity.
  - reflexivity.
Defined.

(** X16: without [stereo], a call of [read_audio_data] that returns has
    not touched the channel set, and it returns [true] exactly when a
    decoder was opened and both the length query and the frame read
    answered [MA_SUCCESS]. *)
Theorem read_audio_data_mono_outcome `{Miniaudio} `{Build}
    (stdin : list (list Byte.byte)) (fname : string)
    (pcmf32 : list f32) (pcmf32s : list (list f32)) (res : decoded) :
  let config := ma_decoder_config_init ma_format_f32 1 WHISPER_SAMPLE_RATE in
  read_audio_data stdin fname pcmf32 pcmf32s false = Some res ->
  out_pcmf32s res = pcmf32s /\
  (ok res = true <->
   exists decoder log frame_count,
     open_decoder stdin fname config = (Some decoder, log) /\
     ma_decoder_get_length_in_pcm_frames decoder = (MA_SUCCESS, frame_count) /\
     (ma_decoder_read_pcm_frames decoder frame_count).1.1 = MA_SUCCESS).
Proof.
  intros config Hrun. unfold read_audio_data in Hrun. fold config in Hrun.
  destruct (open_decoder stdin fname config) as [[decoder |] log] eqn:Hopen.
  2:{ injection Hrun as <-. split; [reflexivity |]. cbn [ok].
      split; [discriminate |]. intros (d & l & fc & Hd & _). discriminate. }
  destruct (ma_decoder_get_length_in_pcm_frames decoder) as [r_len frame_count] eqn:Hlen.
  destruct (decide (r_len <> MA_SUCCESS)) as [Hbad | Hsucc].
  { injection Hrun as <-. split; [reflexivity |]. cbn [ok].
    split; [discriminate |]. intros (d & l & fc & Hd & Hl & _).
    injection Hd as <- <-. rewrite Hlen in Hl. injection Hl as -> _.
    contradiction. }
  assert (r_len = MA_SUCCESS) as ->
    by (destruct (decide (r_len = MA_SUCCESS)); [assumption | contradiction]).
  destruct (ma_decoder_read_pcm_frames decoder frame_count)
    as [[r_read stored] frames_read] eqn:Hread.
  destruct (write_at _ stored) as [data |]; cbn [mbind option_bind] in Hrun;
    [| discriminate].
  destruct (decide (r_read <> MA_SUCCESS)) as [Hbad | Hsucc'].
  - injection Hrun as <-. split; [reflexivity |]. cbn [ok].
    split; [discriminate |]. intros (d & l & fc & Hd & Hl & Hr).
    injection Hd as <- <-. rewrite Hlen in Hl. injection Hl as <-.
    rewrite Hread in Hr. cbn in Hr. contradiction.
  - injection Hrun as <-. split; [reflexivity |]. cbn [ok].
    split; [| reflexivity]. intros _. exists decoder, log, frame_count.
    rewrite Hread. cbn [fst snd].
    split; [reflexivity |]. split; [exact Hlen |].
    destruct (decide (r_read = MA_SUCCESS)); [assumption | contradiction].
Qed.

Lemma read_audio_data_mono_outcome_witness :
  let config :=
    @ma_decoder_config_init mono_source ma_format_f32 1
      (@WHISPER_SAMPLE_RATE plain_build) in
  [] = ([] : list (list f32)) /\
  (true = true <->
   exists decoder log frame_count,
     @open_decoder mono_source plain_build [] "mono.wav" config = (Some decoder, log) /\
     ma_decoder_get_length_in_pcm_frames decoder = (MA_SUCCESS, frame_count) /\
     (ma_decoder_read_pcm_frames decoder frame_count).1.1 = MA_SUCCESS).
Proof.
  apply (@read_audio_data_mono_outcome mono_source plain_build [] "mono.wav" [] []
           {| ok := true; out_pcmf32 := [quarter; half]; out_pcmf32s := [];
              out_stderr := [] |}).
  vm_compute. reflexivity.
Defined.

(** ** Text to speech *)

Lemma commands_run_app (a b : list event) :
  commands_run (a ++ b) = commands_run a ++ commands_run b.
Proof. apply omap_app. Qed.

(** X17: [speak_with_file] hands at most one command to [system], and
    none when the file could not be opened; the command is issued after
    the text was written and the file closed, and the call returns [true]
    exactly when the file was opened and the command returned 0. *)
Theorem speak_with_file_outcome `{OS} (past : list event)
    (command text path : string) (voice_id : Z) :
  let opened := past ++ [ev_open (c_str path)] in
  let written := opened ++ [ev_write text; ev_close] in
  let line :=
    c_str (String.append command
            (String.append " "
            (String.append (to_string voice_id) (String.append " " path)))) in
  let r := speak_with_file past command text path voice_id in
  commands_run r.2 =
    commands_run past ++
    (if ofstream_fails opened (c_str path) then [] else [line]) /\
  (r.1 = true <->
   ofstream_fails opened (c_str path) = false /\ system written line = 0).
Proof.
  intros opened written line r. subst r. unfold speak_with_file.
  fold opened. destruct (ofstream_fails opened (c_str path)) eqn:Hopen.
  - cbn [fst snd]. split.
    + unfold opened. rewrite !commands_run_app. cbn. rewrite !app_nil_r. reflexivity.
    + split; [discriminate | intros [? _]; discriminate].
  - fold written. fold line.
    destruct (system written line =? 0) eqn:Hret; cbn [negb fst snd].
    + split.
      * unfold written, opened. rewrite !commands_run_app. cbn.
        rewrite !app_nil_r. reflexivity.
      * apply Z.eqb_eq in Hret. split; auto.
    + split.
      * unfold written, opened. rewrite !commands_run_app. cbn.
        rewrite !app_nil_r. reflexivity.
      * apply Z.eqb_neq in Hret. split; [discriminate | intros [_ ?]; contradiction].
Qed.

Lemma c_str_app (a b : string) :
  c_str a = a -> c_str (String.append a b) = String.append a (c_str b).
Proof.
  induction a as [| c a IH]; intros Ha; cbn in *; [reflexivity |].
  destruct (Ascii.eqb c "000"); [discriminate |].
  injection Ha as Ha. rewrite IH by exact Ha. reflexivity.
Qed.

Lemma c_str_digits (d : Decimal.uint) :
  c_str (NilEmpty.string_of_uint d) = NilEmpty.string_of_uint d.
Proof. induction d; cbn; rewrite ?IHd; reflexivity. Qed.

Lemma c_str_to_string (v : Z) : c_str (to_string v) = to_string v.
Proof.
  unfold to_string, decimal.
  assert (Hd : forall d, c_str (NilZero.string_of_uint d) = NilZero.string_of_uint d).
  { intros d. destruct d; try reflexivity; apply (c_str_digits (_ d)). }
  destruct (v <? 0); [| apply Hd].
  rewrite c_str_app by reflexivity. rewrite Hd. reflexivity.
Qed.

(** X18: when neither the command nor the path holds a NUL character and
    the file opens, the file opened is [path] and the one command handed
    to [system] is [command], a space, [voice_id] in decimal, a space and
    [path]. *)
Theorem speak_with_file_command_line `{OS} (past : list event)
    (command text path : string) (voice_id : Z) :
  c_str command = command ->
  c_str path = path ->
  ofstream_fails (past ++ [ev_open path]) path = false ->
  exists status_line,
    (speak_with_file past command text path voice_id).2 =
      past ++ [ev_open path; ev_write text; ev_close;
               ev_system (String.append command
                           (String.append " "
                           (String.append (to_string voice_id)
                           (String.append " " path))))] ++ status_line /\
    commands_run status_line = [].
Proof.
  intros Hcommand Hpath Hopen. unfold speak_with_file.
  rewrite Hpath, Hopen.
  rewrite (c_str_app command) by exact Hcommand.
  rewrite (c_str_app " ") by reflexivity.
  rewrite (c_str_app (to_string voice_id)) by apply c_str_to_string.
  rewrite (c_str_app " ") by reflexivity. rewrite Hpath.
  destruct (negb _); cbn [snd]; eexists; rewrite <- !app_assoc; cbn [app];
    (split; [reflexivity |]); reflexivity.
Qed.

Lemma speak_with_file_command_line_witness :
  exists status_line,
    (@speak_with_file (scripted_os "locked.txt" "say 2 out.txt") []
       "say" "hello" "out.txt" 2).2 =
      [] ++ [ev_open "out.txt"; ev_write "hello"; ev_close;
             ev_system (String.append "say"
                         (String.append " "
                         (String.append (to_string 2)
                         (String.append " " "out.txt"))))] ++ status_line /\
    commands_run status_line = [].
Proof.
  apply (@speak_with_file_command_line (scripted_os "locked.txt" "say 2 out.txt") []
           "say" "hello" "out.txt" 2); reflexivity.
Defined.

(** With [scripted_os]: the command runs and succeeds; a locked file stops
    the call before any command; an unknown command fails the call. *)
Example speak_with_file_runs :
  @speak_with_file (scripted_os "locked.txt" "say 2 out.txt") []
    "say" "hello" "out.txt" 2
  = (true, [ev_open "out.txt"; ev_write "hello"; ev_close;
            ev_system "say 2 out.txt"]) /\
  (@speak_with_file (scripted_os "locked.txt" "say 2 out.txt") []
     "say" "hello" "locked.txt" 2).1 = false /\
  commands_run (@speak_with_file (scripted_os "locked.txt" "say 2 out.txt") []
                  "say" "hello" "locked.txt" 2).2 = [] /\
  (@speak_with_file (scripted_os "locked.txt" "say 2 out.txt") []
     "shout" "hello" "out.txt" 2).1 = false.
Proof. repeat split; vm_compute; reflexivity. Qed.
